(** * HaiMessenger telemetry relay: storage, intake, broadcast hub and query routes

    A shallow embedding of [server/storage.ts] (class [MemStorage]), of the
    insert schema of [shared/schema.ts] and of the handlers registered by
    [registerRoutes] in [server/routes.ts], followed by the properties of the
    specification that concern them.

    Conventions.
    - A JavaScript [number] that the program only ever uses as an integer
      (ids, [Date.getTime()] values, the result of [parseInt]) is a [Z]; these
      stay inside the range where IEEE doubles are exact. A [number] that is
      carried as data (temperatures, LED level) is a binary64 [float].
    - A thrown exception is a [None] result.
    - [Map] and [Set] iterate in insertion order, so they are lists. *)

From Stdlib Require Import ZArith List String Ascii Bool Lia Permutation Sorted.
From Stdlib Require Import Floats.PrimFloat.
Import ListNotations.
Local Open Scope Z_scope.

(* ------------------------------------------------------------------------- *)
(** * The JavaScript built-ins the program calls *)
(* ------------------------------------------------------------------------- *)

Module Js.

(** A value that may be [undefined] or [null]. *)
Inductive nullish (A : Type) : Type :=
| Undefined
| Null
| Val (a : A).
Arguments Undefined {A}.
Arguments Null {A}.
Arguments Val {A} a.

(** [x ?? d] *)
Definition coalesce {A : Type} (x : nullish A) (d : A) : A :=
  match x with
  | Val a => a
  | Undefined | Null => d
  end.

(** A value of type [A] seen at the type [A | null] ([None] is [null]). *)
Definition widen {A : Type} (x : nullish A) : nullish (option A) :=
  match x with
  | Val a => Val (Some a)
  | Undefined => Undefined
  | Null => Null
  end.

(** ** [Map<number, V>]: entries in insertion order *)

Section MapOps.
Context {V : Type}.

Fixpoint map_get (k : Z) (m : list (Z * V)) : option V :=
  match m with
  | [] => None
  | (k', v) :: m' => if k' =? k then Some v else map_get k m'
  end.

(** [m.set(k, v)]: an existing key keeps its position, a new key goes last. *)
Fixpoint map_set (k : Z) (v : V) (m : list (Z * V)) : list (Z * V) :=
  match m with
  | [] => [(k, v)]
  | (k', v') :: m' =>
      if k' =? k then (k, v) :: m' else (k', v') :: map_set k v m'
  end.

(** [Array.from(m.values())] *)
Definition map_values (m : list (Z * V)) : list V := map snd m.

Definition map_keys (m : list (Z * V)) : list Z := map fst m.
End MapOps.

(** ** [Set<T>] of objects compared by identity; the identity is a [nat] *)

Fixpoint set_add (x : nat) (s : list nat) : list nat :=
  match s with
  | [] => [x]
  | y :: s' => if Nat.eqb y x then y :: s' else y :: set_add x s'
  end.

Fixpoint set_delete (x : nat) (s : list nat) : list nat :=
  match s with
  | [] => []
  | y :: s' => if Nat.eqb y x then s' else y :: set_delete x s'
  end.

(** ** Arrays *)

Section ArrayOps.
Context {A : Type}.

(** [xs.find(p)] *)
Fixpoint find (p : A -> bool) (xs : list A) : option A :=
  match xs with
  | [] => None
  | x :: xs' => if p x then Some x else find p xs'
  end.

(** [xs.reduce(f)] without an initial value: the first element starts the
    accumulator; on an empty array it throws a TypeError. *)
Definition reduce (f : A -> A -> A) (xs : list A) : option A :=
  match xs with
  | [] => None
  | x :: xs' => Some (fold_left f xs' x)
  end.

(** [xs.sort(cmp)]. ECMAScript requires the sort to be stable, so for a
    consistent comparator the result does not depend on the algorithm; an
    insertion sort that keeps equal elements in their original order
    computes it. [cmp a b <= 0] leaves [a] before [b]. *)
Fixpoint sort_insert (cmp : A -> A -> Z) (x : A) (xs : list A) : list A :=
  match xs with
  | [] => [x]
  | y :: xs' =>
      if cmp x y <=? 0 then x :: y :: xs' else y :: sort_insert cmp x xs'
  end.

Definition sort (cmp : A -> A -> Z) (xs : list A) : list A :=
  fold_right (sort_insert cmp) [] xs.

(** [xs.slice(start, end)] for integral arguments: a negative index counts
    from the end, and both are clamped to the array. *)
Definition slice (start end_ : Z) (xs : list A) : list A :=
  let len := Z.of_nat (List.length xs) in
  let k := if start <? 0 then Z.max (len + start) 0 else Z.min start len in
  let final := if end_ <? 0 then Z.max (len + end_) 0 else Z.min end_ len in
  firstn (Z.to_nat (Z.max (final - k) 0)) (skipn (Z.to_nat k) xs).
End ArrayOps.

(** A comparator that subtracts keys, larger key first, and the order it
    sorts into. *)
Definition by_key_desc {A : Type} (key : A -> Z) (a b : A) : Z := key b - key a.

Definition not_before {A : Type} (key : A -> Z) (a b : A) : Prop := key b <= key a.

(** ** [parseInt(string)] with no radix; [None] is [NaN] *)

(** Characters are 8-bit here: the white space and line terminators up to
    U+00FF. *)
Definition isStrWhiteSpaceChar (c : ascii) : bool :=
  let n := nat_of_ascii c in
  (Nat.eqb n 9 || Nat.eqb n 10 || Nat.eqb n 11 || Nat.eqb n 12
   || Nat.eqb n 13 || Nat.eqb n 32 || Nat.eqb n 160)%bool.

Fixpoint trimStart (s : string) : string :=
  match s with
  | String c s' => if isStrWhiteSpaceChar c then trimStart s' else s
  | EmptyString => s
  end.

(** The value of a digit character in radix [R], if it is one. *)
Definition digitValue (R : Z) (c : ascii) : option Z :=
  let n := Z.of_nat (nat_of_ascii c) in
  let v :=
    if (48 <=? n) && (n <=? 57) then Some (n - 48)
    else if (97 <=? n) && (n <=? 122) then Some (n - 97 + 10)
    else if (65 <=? n) && (n <=? 90) then Some (n - 65 + 10)
    else None in
  match v with
  | Some d => if d <? R then Some d else None
  | None => None
  end.

(** The longest prefix of radix-[R] digits, read as a number; [acc] is the
    value of the digits consumed so far, [None] before the first one. *)
Fixpoint parseDigits (R : Z) (s : string) (acc : option Z) : option Z :=
  match s with
  | EmptyString => acc
  | String c s' =>
      match digitValue R c with
      | Some d =>
          parseDigits R s' (Some (match acc with Some a => a * R + d | None => d end))
      | None => acc
      end
  end.

Definition parseInt (inputString : string) : option Z :=
  let S0 := trimStart inputString in
  let '(sign, S1) :=
    match S0 with
    | String "-"%char r => (-1, r)
    | String "+"%char r => (1, r)
    | _ => (1, S0)
    end in
  let '(R, S2) :=
    match S1 with
    | String "0"%char (String "x"%char r) => (16, r)
    | String "0"%char (String "X"%char r) => (16, r)
    | _ => (10, S1)
    end in
  match parseDigits R S2 None with
  | Some mathInt => Some (sign * mathInt)
  | None => None
  end.

(** [ToString] of a value that is a string or [undefined]. *)
Definition ToString (v : option string) : string :=
  match v with
  | Some s => s
  | None => "undefined"%string
  end.

(** [x || d] on a number: [NaN] and zero are falsy. *)
Definition or_default (x : option Z) (d : Z) : Z :=
  match x with
  | None => d
  | Some 0 => d
  | Some n => n
  end.

End Js.

(* ------------------------------------------------------------------------- *)
(** * [shared/schema.ts]: record types and the insert schema *)
(* ------------------------------------------------------------------------- *)

(** [typeof users.$inferSelect] *)
Module User.
Record t : Type := mk {
  id : Z;
  username : string;
  password : string
}.
End User.

(** [z.infer<typeof insertUserSchema>] *)
Module InsertUser.
Record t : Type := mk {
  username : string;
  password : string
}.
End InsertUser.

(** [typeof sensorReadings.$inferSelect]; [None] is [null], [timestamp] is the
    [Date] as its [getTime()] value. *)
Module SensorReading.
Record t : Type := mk {
  id : Z;
  dhtTemperature : option float;
  lm35Temperature : option float;
  ledLevel : float;
  timestamp : Z
}.
End SensorReading.

(** [z.infer<typeof insertSensorReadingSchema>] *)
Module InsertSensorReading.
Record t : Type := mk {
  dhtTemperature : Js.nullish float;
  lm35Temperature : Js.nullish float;
  ledLevel : Js.nullish float
}.
End InsertSensorReading.

Module Schema.

(** What [JSON.parse] returns. An object is the list of its own properties,
    each key once ([JSON.parse] keeps the last of a repeated key). *)
#[warnings="-register-all"]
Inductive json : Type :=
| JNull
| JBool (b : bool)
| JNumber (x : float)
| JString (s : string)
| JArray (items : list json)
| JObject (fields : list (string * json)).

Fixpoint lookup (key : string) (fields : list (string * json)) : option json :=
  match fields with
  | [] => None
  | (k, v) :: fields' => if String.eqb k key then Some v else lookup key fields'
  end.

(** [data.key]. The outer [None] is the TypeError of reading a property of
    [null]; the inner [None] is [undefined]. The three keys the program reads
    are no property of a string, number, boolean or array. *)
Definition getProp (data : json) (key : string) : option (option json) :=
  match data with
  | JNull => None
  | JObject fields => Some (lookup key fields)
  | JBool _ | JNumber _ | JString _ | JArray _ => Some None
  end.

(** The refinements that [createInsertSchema] puts on the [z.number()] of a
    [real] and of an [integer] column. They differ between releases of
    drizzle-zod (none at first, later a range and, for [integer], an
    integrality check), so they are kept abstract. *)
Class ColumnChecks : Type := {
  real_check : float -> bool;
  integer_check : float -> bool
}.

(** A zod schema applied to a value ([None] is [undefined]); the result [None]
    is a thrown [ZodError]. *)
Definition zod : Type := option json -> option (Js.nullish float).

(** [z.number()] with a refinement: a number that is not [NaN]. *)
Definition z_number (refine : float -> bool) : zod :=
  fun v =>
    match v with
    | Some (JNumber x) =>
        if negb (PrimFloat.is_nan x) && refine x then Some (Js.Val x) else None
    | _ => None
    end.

(** [inner.nullable()] *)
Definition z_nullable (inner : zod) : zod :=
  fun v =>
    match v with
    | Some JNull => Some Js.Null
    | _ => inner v
    end.

(** [inner.optional()] *)
Definition z_optional (inner : zod) : zod :=
  fun v =>
    match v with
    | None => Some Js.Undefined
    | _ => inner v
    end.

Section InsertSchema.
Context `{ColumnChecks}.

(** [createInsertSchema(sensorReadings).omit({ id, timestamp })]: a column
    that is not [notNull()] becomes [.nullable().optional()], a [notNull()]
    column with a default becomes [.optional()]. The table declares
    [dht_temperature] and [lm35_temperature] as [real] columns that may be
    null, and [led_level] as [integer(...).notNull().default(0)]. *)
Definition dhtTemperature_schema : zod := z_optional (z_nullable (z_number real_check)).
Definition lm35Temperature_schema : zod := z_optional (z_nullable (z_number real_check)).
Definition ledLevel_schema : zod := z_optional (z_number integer_check).

(** [insertSensorReadingSchema.parse({ dhtTemperature, lm35Temperature, ledLevel })] *)
Definition insertSensorReadingSchema_parse
    (dhtTemperature lm35Temperature ledLevel : option json)
    : option InsertSensorReading.t :=
  match dhtTemperature_schema dhtTemperature,
        lm35Temperature_schema lm35Temperature,
        ledLevel_schema ledLevel with
  | Some d, Some l, Some e => Some (InsertSensorReading.mk d l e)
  | _, _, _ => None
  end.
End InsertSchema.

End Schema.

(* ------------------------------------------------------------------------- *)
(** * [server/storage.ts]: class [MemStorage] *)
(* ------------------------------------------------------------------------- *)

Module Storage.

Record MemStorage : Type := mkMemStorage {
  users : list (Z * User.t);
  sensorReadings : list (Z * SensorReading.t);
  currentUserId : Z;
  currentReadingId : Z
}.

(** [new MemStorage()] *)
Definition constructor : MemStorage :=
  {| users := []; sensorReadings := []; currentUserId := 1; currentReadingId := 1 |}.

Definition getUser (id : Z) (this : MemStorage) : option User.t :=
  Js.map_get id (users this).

Definition getUserByUsername (username : string) (this : MemStorage) : option User.t :=
  Js.find (fun user => String.eqb (User.username user) username)
          (Js.map_values (users this)).

(** Returns the created user and the storage after the call; the promise it
    returns is never rejected. *)
Definition createUser (insertUser : InsertUser.t) (this : MemStorage)
    : User.t * MemStorage :=
  let id := currentUserId this in
  let user := {| User.id := id;
                 User.username := InsertUser.username insertUser;
                 User.password := InsertUser.password insertUser |} in
  (user,
   {| users := Js.map_set id user (users this);
      sensorReadings := sensorReadings this;
      currentUserId := id + 1;
      currentReadingId := currentReadingId this |}).

(** [now] is the value of [new Date()] at the call. *)
Definition createSensorReading (insertReading : InsertSensorReading.t) (now : Z)
    (this : MemStorage) : SensorReading.t * MemStorage :=
  let id := currentReadingId this in
  let reading :=
    {| SensorReading.id := id;
       SensorReading.dhtTemperature :=
         Js.coalesce (Js.widen (InsertSensorReading.dhtTemperature insertReading)) None;
       SensorReading.lm35Temperature :=
         Js.coalesce (Js.widen (InsertSensorReading.lm35Temperature insertReading)) None;
       SensorReading.ledLevel :=
         Js.coalesce (InsertSensorReading.ledLevel insertReading) 0%float;
       SensorReading.timestamp := now |} in
  (reading,
   {| users := users this;
      sensorReadings := Js.map_set id reading (sensorReadings this);
      currentUserId := currentUserId this;
      currentReadingId := id + 1 |}).

(** The comparator of [getRecentSensorReadings]. *)
Definition newest_first (a b : SensorReading.t) : Z :=
  SensorReading.timestamp b - SensorReading.timestamp a.

Definition getRecentSensorReadings (limit : Z) (this : MemStorage)
    : list SensorReading.t :=
  let readings :=
    Js.slice 0 limit (Js.sort newest_first (Js.map_values (sensorReadings this))) in
  readings.

(** The callback of the [reduce] in [getLatestSensorReading]. *)
Definition later (latest current : SensorReading.t) : SensorReading.t :=
  if SensorReading.timestamp current >? SensorReading.timestamp latest
  then current else latest.

(** [None] is [undefined]. [reduce] throws only on an empty array, which the
    length test has returned on before. *)
Definition getLatestSensorReading (this : MemStorage) : option SensorReading.t :=
  let readings := Js.map_values (sensorReadings this) in
  if Nat.eqb (List.length readings) 0 then None
  else Js.reduce later readings.

(** A sequence of [createSensorReading] calls, each with its argument and the
    clock value it reads: the readings returned, in call order, and the storage
    after the last call. *)
Fixpoint createSensorReading_each (calls : list (InsertSensorReading.t * Z))
    (this : MemStorage) : list SensorReading.t * MemStorage :=
  match calls with
  | [] => ([], this)
  | (insertReading, now) :: calls' =>
      let '(reading, this') := createSensorReading insertReading now this in
      let '(readings, final) := createSensorReading_each calls' this' in
      (reading :: readings, final)
  end.

(** The storages a program can hold: [new MemStorage()] and what the two
    mutating methods make of it. *)
Inductive reachable : MemStorage -> Prop :=
| reachable_constructor : reachable constructor
| reachable_createUser insertUser this :
    reachable this -> reachable (snd (createUser insertUser this))
| reachable_createSensorReading insertReading now this :
    reachable this -> reachable (snd (createSensorReading insertReading now this)).

(** Every entry of the readings map is keyed by its reading's id, the keys
    grow in insertion order and stay below the counter. *)
Definition well_keyed (this : MemStorage) : Prop :=
  Forall (fun kv => fst kv = SensorReading.id (snd kv)) (sensorReadings this)
  /\ StronglySorted Z.lt (map fst (sensorReadings this))
  /\ Forall (fun k => k < currentReadingId this) (map fst (sensorReadings this)).

End Storage.

(* ------------------------------------------------------------------------- *)
(** * [server/routes.ts]: the handlers that [registerRoutes] installs *)
(* ------------------------------------------------------------------------- *)

Module Routes.
Import Schema Storage.

(** A [WebSocket] object, by identity. *)
Definition WebSocket : Type := nat.

Inductive ReadyState : Type := CONNECTING | OPEN | CLOSING | CLOSED.

Definition is_OPEN (st : ReadyState) : bool :=
  match st with
  | OPEN => true
  | CONNECTING | CLOSING | CLOSED => false
  end.

(** The object handed to [JSON.stringify] before [ws.send]. *)
Inductive Envelope : Type :=
| connection_status (status : string)
| sensor_data (data : SensorReading.t).

(** What the closures of [registerRoutes] share: the storage singleton, the
    [wsConnections] set, the transport state the [ws] library keeps for each
    socket, and every [ws.send] made so far, oldest first. *)
Record Server : Type := mkServer {
  storage : MemStorage;
  wsConnections : list WebSocket;
  readyState : WebSocket -> ReadyState;
  sent : list (WebSocket * Envelope)
}.

Definition with_storage (st : MemStorage) (s : Server) : Server :=
  {| storage := st; wsConnections := wsConnections s;
     readyState := readyState s; sent := sent s |}.

Definition with_wsConnections (c : list WebSocket) (s : Server) : Server :=
  {| storage := storage s; wsConnections := c;
     readyState := readyState s; sent := sent s |}.

(** [ws.send(JSON.stringify(envelope))] *)
Definition send (ws : WebSocket) (envelope : Envelope) (s : Server) : Server :=
  {| storage := storage s; wsConnections := wsConnections s;
     readyState := readyState s; sent := sent s ++ [(ws, envelope)] |}.

(** The part of a handler that runs as a microtask: what follows the [await]
    in the message handler, and the [then] callback of the connection handler.
    The storage methods have no [await] of their own, so their bodies have run,
    and their results are fixed, when the continuation is queued. *)
Inductive Continuation : Type :=
| after_createSensorReading (storedReading : SensorReading.t)
| then_getLatestSensorReading (ws : WebSocket) (reading : option SensorReading.t).

(** [wsConnections.forEach(ws => { if (ws.readyState === WebSocket.OPEN) ws.send(...) })] *)
Definition broadcast (storedReading : SensorReading.t) (s : Server) : Server :=
  fold_left
    (fun acc ws =>
       if is_OPEN (readyState acc ws) then send ws (sensor_data storedReading) acc
       else acc)
    (wsConnections s) s.

(** The sends of one such pass, listed in the order of the set. *)
Definition fan_out (r : SensorReading.t) (s : Server) : list (WebSocket * Envelope) :=
  map (fun ws => (ws, sensor_data r))
      (filter (fun ws => is_OPEN (readyState s ws)) (wsConnections s)).

Definition resume (k : Continuation) (s : Server) : Server :=
  match k with
  | after_createSensorReading storedReading => broadcast storedReading s
  | then_getLatestSensorReading ws reading =>
      match reading with
      | Some r => send ws (sensor_data r) s
      | None => s
      end
  end.

Inductive Event : Type :=
| mqtt_message (topic : string) (message : option json) (now : Z)
| ws_connection (ws : WebSocket)
| ws_close (ws : WebSocket)
| ws_error (ws : WebSocket).

Section Handlers.
Context `{ColumnChecks}.

(** The [try] block of the message handler up to the call of the storage.
    [message] is the outcome of [JSON.parse(message.toString())], [None] when
    it throws a SyntaxError; the result [None] is any exception, which the
    [catch] logs. *)
Definition sensorReading_of (message : option json) : option InsertSensorReading.t :=
  match message with
  | None => None
  | Some data =>
      match getProp data "suhuDHT", getProp data "suhuLM35", getProp data "LED" with
      | Some suhuDHT, Some suhuLM35, Some LED =>
          insertSensorReadingSchema_parse suhuDHT suhuLM35 LED
      | _, _, _ => None
      end
  end.

(** [mqttClient.on('message', ...)] up to its [await]. *)
Definition on_message (topic : string) (message : option json) (now : Z)
    (s : Server) : Server * list Continuation :=
  match sensorReading_of message with
  | Some sensorReading =>
      let '(storedReading, st) := createSensorReading sensorReading now (storage s) in
      (with_storage st s, [after_createSensorReading storedReading])
  | None => (s, [])
  end.

(** [wss.on('connection', ...)] *)
Definition on_connection (ws : WebSocket) (s : Server) : Server * list Continuation :=
  let s1 := with_wsConnections (Js.set_add ws (wsConnections s)) s in
  let s2 := send ws (connection_status "connected") s1 in
  (s2, [then_getLatestSensorReading ws (getLatestSensorReading (storage s2))]).

(** [ws.on('close', ...)] and [ws.on('error', ...)] *)
Definition on_close (ws : WebSocket) (s : Server) : Server * list Continuation :=
  (with_wsConnections (Js.set_delete ws (wsConnections s)) s, []).

Definition on_error (ws : WebSocket) (s : Server) : Server * list Continuation :=
  (with_wsConnections (Js.set_delete ws (wsConnections s)) s, []).

Definition handler (ev : Event) (s : Server) : Server * list Continuation :=
  match ev with
  | mqtt_message topic message now => on_message topic message now s
  | ws_connection ws => on_connection ws s
  | ws_close ws => on_close ws s
  | ws_error ws => on_error ws s
  end.

(** One turn of the event loop: the handler of the event, then the
    microtasks it queued, before any other event is delivered. *)
Definition dispatch (ev : Event) (s : Server) : Server :=
  let '(s', queued) := handler ev s in
  fold_left (fun acc k => resume k acc) queued s'.

Definition run (evs : list Event) (s : Server) : Server :=
  fold_left (fun acc ev => dispatch ev acc) evs s.
End Handlers.

(** A field of the payload that is missing or [null]. *)
Definition absent_or_null (v : option json) : Prop :=
  v = None \/ v = Some JNull.

(** ** The query routes *)

Inductive Response : Type :=
| json_readings (status : Z) (body : list SensorReading.t)
| json_reading (status : Z) (body : SensorReading.t)
| json_error (status : Z) (error : string).

(** [app.get('/api/readings/recent', ...)]; [query_limit] is [req.query.limit],
    a string or [undefined]. No call in the [try] block throws, so the 500
    branch of the [catch] is never taken. *)
Definition recent_limit (query_limit : option string) : Z :=
  Js.or_default (Js.parseInt (Js.ToString query_limit)) 20.

Definition get_api_readings_recent (query_limit : option string) (st : MemStorage)
    : Response :=
  let limit := recent_limit query_limit in
  let readings := getRecentSensorReadings limit st in
  json_readings 200 readings.

(** [app.get('/api/readings/latest', ...)] *)
Definition get_api_readings_latest (st : MemStorage) : Response :=
  match getLatestSensorReading st with
  | Some reading => json_reading 200 reading
  | None => json_error 404 "No readings available"
  end.

End Routes.

(* ------------------------------------------------------------------------- *)
(** * Concrete storages used by the examples *)
(* ------------------------------------------------------------------------- *)

Module Samples.
Import Storage.

Definition blank : InsertSensorReading.t :=
  InsertSensorReading.mk Js.Undefined Js.Undefined Js.Undefined.

Definition measured : InsertSensorReading.t :=
  InsertSensorReading.mk (Js.Val 26.5%float) (Js.Val 27.5%float) (Js.Val 2%float).

(** Three readings, created when the clock read 5, 9 and 9 again. *)
Definition three_calls : list (InsertSensorReading.t * Z) :=
  [(measured, 5); (blank, 9); (measured, 9)].

Definition three_readings : MemStorage :=
  snd (createSensorReading_each three_calls constructor).

Definition reading1 : SensorReading.t :=
  SensorReading.mk 1 (Some 26.5%float) (Some 27.5%float) 2%float 5.
Definition reading2 : SensorReading.t :=
  SensorReading.mk 2 None None 0%float 9.
Definition reading3 : SensorReading.t :=
  SensorReading.mk 3 (Some 26.5%float) (Some 27.5%float) 2%float 9.

Definition alice : InsertUser.t := InsertUser.mk "alice" "secret".
Definition alice_again : InsertUser.t := InsertUser.mk "alice" "other".

(** The insert schema as the first releases of drizzle-zod build it: a plain
    [z.number()] for both column types. *)
Definition unrefined : Schema.ColumnChecks :=
  {| Schema.real_check := fun _ => true; Schema.integer_check := fun _ => true |}.

(** Parsed payloads. *)
Definition telemetry : Schema.json :=
  Schema.JObject [("suhuDHT"%string, Schema.JNumber 26.5%float);
                  ("suhuLM35"%string, Schema.JNumber 27.5%float);
                  ("LED"%string, Schema.JNumber 2%float)].

Definition text_temperature : Schema.json :=
  Schema.JObject [("suhuDHT"%string, Schema.JString "hot");
                  ("suhuLM35"%string, Schema.JNumber 27.5%float);
                  ("LED"%string, Schema.JNumber 2%float)].

Definition all_null : Schema.json :=
  Schema.JObject [("suhuDHT"%string, Schema.JNull);
                  ("suhuLM35"%string, Schema.JNull);
                  ("LED"%string, Schema.JNull)].

Definition temperatures_null : Schema.json :=
  Schema.JObject [("suhuDHT"%string, Schema.JNull);
                  ("suhuLM35"%string, Schema.JNull)].

(** Three registered sockets, the middle one closing. *)
Definition hub : Routes.Server :=
  {| Routes.storage := three_readings;
     Routes.wsConnections := [10%nat; 11%nat; 12%nat];
     Routes.readyState :=
       fun ws => if Nat.eqb ws 11 then Routes.CLOSING else Routes.OPEN;
     Routes.sent := [] |}.

Definition topic : string := "iot/G.231.22.0062".

End Samples.

(* ------------------------------------------------------------------------- *)
(** * The dashboard component of the client *)
(* ------------------------------------------------------------------------- *)

Module Dashboard.

Inductive ConnectionStatus : Type := connecting | connected | disconnected.

(** [interface WebSocketMessage], as [JSON.parse(event.data)] yields it; a
    field that is missing is [None]. The reading is carried as the server
    sent it. *)
Record WebSocketMessage : Type := mkMessage {
  type : option string;
  data : option SensorReading.t;
  status : option string
}.

(** The [useState] cells of the component. *)
Record State : Type := mkState {
  wsConnected : bool;
  connectionStatus : ConnectionStatus;
  sensorData : option SensorReading.t;
  historicalData : list SensorReading.t;
  lastUpdate : option Z
}.

Definition initial : State :=
  {| wsConnected := false; connectionStatus := connecting; sensorData := None;
     historicalData := []; lastUpdate := None |}.

Definition is_type (name : string) (message : WebSocketMessage) : bool :=
  match type message with
  | Some t => String.eqb t name
  | None => false
  end.


(** [ws.onmessage]; [message] is [None] when [JSON.parse] or the reading of
    [message.type] throws, which the [catch] logs; [now] is [new Date()]. *)
Definition onmessage (message : option WebSocketMessage) (now : Z) (st : State)
    : State :=
  match message with
  | None => st
  | Some message =>
      let st1 :=
        match is_type "sensor_data" message, data message with
        | true, Some reading =>
            {| wsConnected := wsConnected st;
               connectionStatus := connectionStatus st;
               sensorData := Some reading;
               historicalData := Js.slice 0 20 (reading :: historicalData st);
               lastUpdate := Some now |}
        | _, _ => st
        end in
      if is_type "connection_status" message then
        {| wsConnected := wsConnected st1;
           connectionStatus :=
             match status message with
             | Some text => if String.eqb text "connected" then connected
                            else disconnected
             | None => disconnected
             end;
           sensorData := sensorData st1; historicalData := historicalData st1;
           lastUpdate := lastUpdate st1 |}
      else st1
  end.

(** [ws.onclose] and [ws.onerror] *)
Definition onclose (st : State) : State :=
  {| wsConnected := false; connectionStatus := disconnected;
     sensorData := sensorData st; historicalData := historicalData st;
     lastUpdate := lastUpdate st |}.

Definition onerror (st : State) : State :=
  {| wsConnected := false; connectionStatus := disconnected;
     sensorData := sensorData st; historicalData := historicalData st;
     lastUpdate := lastUpdate st |}.

(** The effect on [recentReadings]: an array, even an empty one, is truthy. *)
Definition recentReadings_effect (recentReadings : option (list SensorReading.t))
    (st : State) : State :=
  match recentReadings with
  | Some readings =>
      {| wsConnected := wsConnected st; connectionStatus := connectionStatus st;
         sensorData := sensorData st; historicalData := readings;
         lastUpdate := lastUpdate st |}
  | None => st
  end.

(** The effect on [latestReading]. *)
Definition latestReading_effect (latestReading : option SensorReading.t)
    (st : State) : State :=
  match latestReading with
  | Some reading =>
      {| wsConnected := wsConnected st; connectionStatus := connectionStatus st;
         sensorData := Some reading; historicalData := historicalData st;
         lastUpdate := lastUpdate st |}
  | None => st
  end.

Definition clearHistory (st : State) : State :=
  {| wsConnected := wsConnected st; connectionStatus := connectionStatus st;
     sensorData := sensorData st; historicalData := [];
     lastUpdate := lastUpdate st |}.

(** What the browser makes of an envelope the server sent: the object that
    [JSON.parse] returns for the text [JSON.stringify] produced. *)
Definition received (envelope : Routes.Envelope) : WebSocketMessage :=
  match envelope with
  | Routes.connection_status text =>
      {| type := Some "connection_status"%string; data := None; status := Some text |}
  | Routes.sensor_data reading =>
      {| type := Some "sensor_data"%string; data := Some reading; status := None |}
  end.

(** [onmessage] for each envelope in turn, all at clock value [now]. *)
Definition deliver (envelopes : list Routes.Envelope) (now : Z) (st : State) : State :=
  fold_left (fun acc envelope => onmessage (Some (received envelope)) now acc)
            envelopes st.

End Dashboard.

(* ------------------------------------------------------------------------- *)
(** * Vocabulary of the further properties *)
(* ------------------------------------------------------------------------- *)

Module Vocabulary.
Import Schema Storage Routes.

(** The ids 1, 2, ..., n. *)
Definition ids_upto (n : nat) : list Z := map Z.of_nat (seq 1 n).

Definition is_number (v : json) : bool :=
  match v with
  | JNumber _ => true
  | _ => false
  end.

Definition is_null (v : json) : bool :=
  match v with
  | JNull => true
  | _ => false
  end.

Definition is_object (v : json) : bool :=
  match v with
  | JObject _ => true
  | _ => false
  end.

(** The envelopes addressed to one socket, oldest first. *)
Definition sent_to (ws : WebSocket) (log : list (WebSocket * Envelope)) : list Envelope :=
  map snd (filter (fun m => Nat.eqb (fst m) ws) log).


(** Every reading that was sent is in the storage. *)
Definition sent_are_stored (s : Server) : Prop :=
  forall ws r,
    In (ws, sensor_data r) (sent s) ->
    In r (Js.map_values (sensorReadings (storage s))).

(** The events whose message passes the [try] block. *)
Definition accepted `{ColumnChecks} (ev : Event) : bool :=
  match ev with
  | mqtt_message _ message _ =>
      match sensorReading_of message with
      | Some _ => true
      | None => false
      end
  | _ => false
  end.

Definition is_connection_of (ws : WebSocket) (ev : Event) : bool :=
  match ev with
  | ws_connection ws' => Nat.eqb ws' ws
  | _ => false
  end.

End Vocabulary.

(* ------------------------------------------------------------------------- *)
(** * Further concrete states *)
(* ------------------------------------------------------------------------- *)

Module MoreSamples.
Import Storage.

(** Two users created with the same username. *)
Definition two_users : MemStorage :=
  snd (createUser Samples.alice_again (snd (createUser Samples.alice constructor))).

Definition bob : InsertUser.t := InsertUser.mk "bob" "hunter2".

(** A fourth reading, created when the clock read 7, behind the latest. *)
Definition reading4_late : SensorReading.t :=
  SensorReading.mk 4 None None 0%float 7.

(** The reading that [Samples.telemetry] makes when it arrives fourth, at
    clock value 8. *)
Definition reading4 : SensorReading.t :=
  SensorReading.mk 4 (Some 26.5%float) (Some 27.5%float) 2%float 8.

(** A valid message, a malformed one, a new socket and a departure. *)
Definition busy : list Routes.Event :=
  [Routes.mqtt_message Samples.topic (Some Samples.telemetry) 8;
   Routes.mqtt_message Samples.topic (Some Samples.text_temperature) 9;
   Routes.ws_connection 14%nat;
   Routes.ws_close 10%nat].

(** A payload whose indicator level is a string. *)
Definition text_LED : Schema.json :=
  Schema.JObject [("suhuDHT"%string, Schema.JNumber 26.5%float);
                  ("LED"%string, Schema.JString "2")].

End MoreSamples.

(* ------------------------------------------------------------------------- *)
(** * Facts about the built-ins *)
(* ------------------------------------------------------------------------- *)

Module JsFacts.

Lemma sort_insert_perm {A : Type} (cmp : A -> A -> Z) (x : A) (xs : list A) :
  Permutation (Js.sort_insert cmp x xs) (x :: xs).
Proof.
  induction xs as [|y xs IH]; simpl.
  - apply Permutation_refl.
  - destruct (cmp x y <=? 0).
    + apply Permutation_refl.
    + eapply Permutation_trans; [apply perm_skip, IH | apply perm_swap].
Qed.

Lemma sort_perm {A : Type} (cmp : A -> A -> Z) (xs : list A) :
  Permutation (Js.sort cmp xs) xs.
Proof.
  induction xs as [|x xs IH]; simpl.
  - constructor.
  - eapply Permutation_trans; [apply sort_insert_perm | now apply perm_skip].
Qed.

Lemma sort_length {A : Type} (cmp : A -> A -> Z) (xs : list A) :
  List.length (Js.sort cmp xs) = List.length xs.
Proof. apply Permutation_length, sort_perm. Qed.

Section SortByKey.
Context {A : Type} (key : A -> Z).

Lemma sort_insert_sorted (x : A) (xs : list A) :
  StronglySorted (Js.not_before key) xs ->
  StronglySorted (Js.not_before key) (Js.sort_insert (Js.by_key_desc key) x xs).
Proof.
  induction 1 as [|y xs Hs IH Hy]; simpl.
  - repeat constructor.
  - destruct ((Js.by_key_desc key) x y <=? 0) eqn:E; unfold Js.by_key_desc in E.
    + apply Z.leb_le in E.
      constructor; [now constructor|].
      constructor; [unfold Js.not_before; lia|].
      eapply Forall_impl; [|exact Hy].
      unfold Js.not_before; intros; lia.
    + apply Z.leb_gt in E.
      constructor; [exact IH|].
      eapply Permutation_Forall; [apply Permutation_sym, sort_insert_perm|].
      constructor; [unfold Js.not_before; lia | exact Hy].
Qed.

Lemma sort_sorted (xs : list A) :
  StronglySorted (Js.not_before key) (Js.sort (Js.by_key_desc key) xs).
Proof.
  induction xs as [|x xs IH]; simpl.
  - constructor.
  - now apply sort_insert_sorted.
Qed.

(** In a sorted list nothing behind a cut comes before anything in front
    of it. *)
Lemma sorted_cut (n : nat) (xs : list A) :
  StronglySorted (Js.not_before key) xs ->
  Forall (fun b => Forall (fun a => (Js.not_before key) a b) (firstn n xs)) (skipn n xs).
Proof.
  revert xs; induction n as [|n IH]; intros xs Hs.
  - simpl. apply Forall_forall; intros; constructor.
  - destruct xs as [|x xs]; simpl; [constructor|].
    inversion Hs as [|? ? Hs' Hx]; subst.
    specialize (IH xs Hs').
    rewrite Forall_forall in *; intros b Hb.
    constructor; [|now apply IH].
    apply Hx.
    rewrite <- (firstn_skipn n xs). apply in_or_app; now right.
Qed.

Lemma sorted_firstn (n : nat) (xs : list A) :
  StronglySorted (Js.not_before key) xs -> StronglySorted (Js.not_before key) (firstn n xs).
Proof.
  revert xs; induction n as [|n IH]; intros xs Hs; simpl; [constructor|].
  destruct xs as [|x xs]; [constructor|].
  inversion Hs as [|? ? Hs' Hx]; subst.
  constructor; [now apply IH|].
  rewrite Forall_forall in *; intros b Hb. apply Hx.
  rewrite <- (firstn_skipn n xs). apply in_or_app; now left.
Qed.
End SortByKey.

Lemma slice_0_pos {A : Type} (k : Z) (xs : list A) :
  0 < k -> Js.slice 0 k xs = firstn (Z.to_nat k) xs.
Proof.
  intros Hk. unfold Js.slice.
  replace (0 <? 0) with false by reflexivity.
  replace (k <? 0) with false by (symmetry; apply Z.ltb_ge; lia).
  rewrite (Z.min_l 0) by lia. simpl skipn.
  destruct (Z.le_gt_cases k (Z.of_nat (List.length xs))) as [Hle|Hgt].
  - rewrite Z.min_l by lia. f_equal. lia.
  - rewrite Z.min_r by lia. rewrite Z.sub_0_r, Z.max_l by lia.
    rewrite Nat2Z.id, firstn_all. symmetry. apply firstn_all2. lia.
Qed.

Lemma slice_0_neg {A : Type} (k : Z) (xs : list A) :
  k < 0 -> Js.slice 0 k xs = firstn (List.length xs - Z.to_nat (- k)) xs.
Proof.
  intros Hk. unfold Js.slice.
  replace (0 <? 0) with false by reflexivity.
  replace (k <? 0) with true by (symmetry; apply Z.ltb_lt; lia).
  rewrite (Z.min_l 0) by lia. simpl skipn. f_equal. lia.
Qed.

Lemma set_add_In (x y : nat) (s : list nat) :
  In y (Js.set_add x s) <-> y = x \/ In y s.
Proof.
  induction s as [|z s IH]; simpl.
  - intuition.
  - destruct (Nat.eqb z x) eqn:E; simpl.
    + apply Nat.eqb_eq in E; subst. intuition.
    + rewrite IH. intuition.
Qed.

Lemma set_add_NoDup (x : nat) (s : list nat) :
  NoDup s -> NoDup (Js.set_add x s).
Proof.
  induction 1 as [|z s Hz Hs IH]; simpl.
  - repeat constructor. intros [].
  - destruct (Nat.eqb z x) eqn:E; [now constructor|].
    apply Nat.eqb_neq in E. constructor; [|exact IH].
    rewrite set_add_In. intros [->|Hin]; [now apply E | now apply Hz].
Qed.

Lemma set_delete_In (x y : nat) (s : list nat) :
  In y (Js.set_delete x s) -> In y s.
Proof.
  induction s as [|z s IH]; simpl; [tauto|].
  destruct (Nat.eqb z x); simpl; intuition.
Qed.

Lemma set_delete_NoDup (x : nat) (s : list nat) :
  NoDup s -> NoDup (Js.set_delete x s).
Proof.
  induction 1 as [|z s Hz Hs IH]; simpl; [constructor|].
  destruct (Nat.eqb z x); [exact Hs|].
  constructor; [|exact IH]. intros Hin. now apply Hz, (set_delete_In x).
Qed.

End JsFacts.

(* ------------------------------------------------------------------------- *)
(** * The Reading Store *)
(* ------------------------------------------------------------------------- *)

Module StorageFacts.
Import Storage.

#[local] Abbreviation ts := SensorReading.timestamp.

Lemma createSensorReading_id insertReading now this :
  SensorReading.id (fst (createSensorReading insertReading now this))
  = currentReadingId this.
Proof. reflexivity. Qed.

Lemma createSensorReading_counter insertReading now this :
  currentReadingId (snd (createSensorReading insertReading now this))
  = currentReadingId this + 1.
Proof. reflexivity. Qed.

(** Every id handed out by a run of calls is at least the counter the run
    started from, and the ids grow along the run. *)
Lemma createSensorReading_each_ids calls : forall this,
  Forall (fun i => currentReadingId this <= i)
         (map SensorReading.id (fst (createSensorReading_each calls this)))
  /\ StronglySorted Z.lt
       (map SensorReading.id (fst (createSensorReading_each calls this))).
Proof.
  induction calls as [|[insertReading now] calls IH]; intros this; simpl.
  - split; constructor.
  - destruct (IH (snd (createSensorReading insertReading now this))) as [Hge Hs].
    unfold createSensorReading in *; simpl in *.
    destruct (createSensorReading_each calls _) as [readings final]; simpl in *.
    split.
    + constructor; [lia|]. eapply Forall_impl; [|exact Hge]. simpl; intros; lia.
    + constructor; [exact Hs|]. eapply Forall_impl; [|exact Hge]. simpl; intros; lia.
Qed.

Lemma lt_sorted_NoDup (l : list Z) : StronglySorted Z.lt l -> NoDup l.
Proof.
  induction 1 as [|x l Hs IH Hx]; constructor; [|exact IH].
  intros Hin. rewrite Forall_forall in Hx. specialize (Hx x Hin). lia.
Qed.

(** ** The shape of a reachable storage *)

Lemma map_set_fresh {V : Type} (k : Z) (v : V) (m : list (Z * V)) :
  Forall (fun k' => k' < k) (map fst m) -> Js.map_set k v m = m ++ [(k, v)].
Proof.
  induction m as [|[k' v'] m IH]; simpl; intros Hlt; [reflexivity|].
  inversion Hlt as [|? ? Hk Hm]; subst; simpl in Hk.
  replace (k' =? k) with false by (symmetry; apply Z.eqb_neq; lia).
  now rewrite IH.
Qed.

Lemma lt_sorted_snoc (l : list Z) (k : Z) :
  StronglySorted Z.lt l -> Forall (fun k' => k' < k) l -> StronglySorted Z.lt (l ++ [k]).
Proof.
  induction 1 as [|x l Hs IH Hx]; intros Hlt; simpl.
  - repeat constructor.
  - inversion Hlt; subst. constructor; [now apply IH|].
    apply Forall_app; split; [exact Hx | repeat constructor; assumption].
Qed.

Lemma reachable_well_keyed this : reachable this -> well_keyed this.
Proof.
  induction 1 as [|insertUser this Hr IH|insertReading now this Hr IH].
  - repeat split; constructor.
  - exact IH.
  - destruct IH as (Hid & Hs & Hlt). unfold well_keyed; simpl.
    rewrite (map_set_fresh _ _ _ Hlt). rewrite map_app; simpl.
    repeat split.
    + apply Forall_app; split; [exact Hid | repeat constructor].
    + now apply lt_sorted_snoc.
    + apply Forall_app; split.
      * eapply Forall_impl; [|exact Hlt]. simpl; intros; lia.
      * repeat constructor; lia.
Qed.

(** ** The fold of [getLatestSensorReading] *)

(** The fold returns an element of the array, nothing before it reaches its
    timestamp and nothing after it exceeds it. *)
Lemma fold_later_split (xs : list SensorReading.t) : forall x,
  exists l1 l2,
    x :: xs = l1 ++ fold_left later xs x :: l2
    /\ Forall (fun y => ts y < ts (fold_left later xs x)) l1
    /\ Forall (fun y => ts y <= ts (fold_left later xs x)) l2.
Proof.
  induction xs as [|y xs IH]; intros x; simpl.
  - exists [], []. repeat split; constructor.
  - unfold later at 2 4 6. destruct (ts y >? ts x) eqn:E.
    + apply Z.gtb_lt in E.
      destruct (IH y) as (l1 & l2 & Heq & H1 & H2).
      remember (fold_left later xs y) as r eqn:Hr.
      assert (Hy : ts y <= ts r).
      { assert (Hin : In y (l1 ++ r :: l2)) by (rewrite <- Heq; now left).
        apply in_app_or in Hin. rewrite Forall_forall in H1, H2.
        destruct Hin as [Hin|[Hin|Hin]]; [apply H1 in Hin|rewrite Hin|apply H2 in Hin]; lia. }
      exists (x :: l1), l2. rewrite Heq. repeat split; trivial.
      constructor; [lia | exact H1].
    + assert (E' : ts y <= ts x) by (rewrite Z.gtb_ltb in E; apply Z.ltb_ge in E; lia).
      destruct (IH x) as (l1 & l2 & Heq & H1 & H2).
      remember (fold_left later xs x) as r eqn:Hr.
      destruct l1 as [|z l1]; simpl in Heq; injection Heq as Hx Hxs.
      * exists [], (y :: l2). rewrite <- Hx. repeat split; simpl; trivial.
        -- now rewrite <- Hxs.
        -- constructor; [lia|]. now rewrite Hx.
      * apply Forall_cons_iff in H1 as [Hxr H1']. rewrite <- Hx in Hxr.
        exists (x :: y :: l1), l2. repeat split; simpl; trivial.
        -- now rewrite <- Hxs.
        -- constructor; [exact Hxr|]. constructor; [lia | exact H1'].
Qed.

Lemma getLatestSensorReading_unfold this :
  getLatestSensorReading this
  = match Js.map_values (sensorReadings this) with
    | [] => None
    | x :: xs => Some (fold_left later xs x)
    end.
Proof.
  unfold getLatestSensorReading.
  destruct (Js.map_values (sensorReadings this)); reflexivity.
Qed.


Lemma reachable_createSensorReading_each calls : forall this,
  reachable this -> reachable (snd (createSensorReading_each calls this)).
Proof.
  induction calls as [|[insertReading now] calls IH]; intros this Hr; simpl.
  - exact Hr.
  - specialize (IH _ (reachable_createSensorReading insertReading now this Hr)).
    unfold createSensorReading in *; simpl in *.
    destruct (createSensorReading_each calls _); exact IH.
Qed.

Lemma ids_of_values this :
  well_keyed this ->
  map SensorReading.id (Js.map_values (sensorReadings this))
  = map fst (sensorReadings this).
Proof.
  intros (Hid & _). unfold Js.map_values.
  induction Hid as [|kv m Hkv Hm IH]; simpl; [reflexivity|].
  now rewrite IH, Hkv.
Qed.

Lemma lt_sorted_after (l1 l2 : list Z) (x : Z) :
  StronglySorted Z.lt (l1 ++ x :: l2) -> Forall (fun y => x < y) l2.
Proof.
  induction l1 as [|z l1 IH]; simpl; intros Hs; inversion Hs; subst; auto.
Qed.

(** In a reachable storage the id of a new reading exceeds the id of every
    reading stored before. *)
Lemma createSensorReading_id_fresh insertReading now this :
  reachable this ->
  Forall (fun r => SensorReading.id r
                   < SensorReading.id (fst (createSensorReading insertReading now this)))
         (Js.map_values (sensorReadings this)).
Proof.
  intros Hreach. apply reachable_well_keyed in Hreach.
  pose proof (ids_of_values this Hreach) as Hids.
  destruct Hreach as (_ & _ & Hlt). rewrite <- Hids in Hlt.
  rewrite Forall_map in Hlt. exact Hlt.
Qed.

(** C4: along every sequence of [createSensorReading] calls on a storage, the
    id of each returned reading is strictly greater than the id returned by
    every earlier call of the sequence (the list of returned ids is strictly
    increasing); so the ids are pairwise distinct, and none is below the
    counter the sequence started from. *)
Theorem createSensorReading_ids_strictly_increase
    (calls : list (InsertSensorReading.t * Z)) (this : MemStorage) :
  StronglySorted Z.lt
    (map SensorReading.id (fst (createSensorReading_each calls this)))
  /\ NoDup (map SensorReading.id (fst (createSensorReading_each calls this)))
  /\ Forall (fun i => currentReadingId this <= i)
       (map SensorReading.id (fst (createSensorReading_each calls this))).
Proof.
  destruct (createSensorReading_each_ids calls this) as [Hge Hs].
  repeat split; trivial. now apply lt_sorted_NoDup.
Qed.

(** C5: [getLatestSensorReading] returns [undefined] when the storage holds no
    reading; otherwise it returns a stored reading whose timestamp no stored
    reading exceeds. *)
Theorem getLatestSensorReading_maximal (this : MemStorage) :
  (sensorReadings this = [] -> getLatestSensorReading this = None)
  /\ (sensorReadings this <> [] ->
      exists r,
        getLatestSensorReading this = Some r
        /\ In r (Js.map_values (sensorReadings this))
        /\ Forall (fun r' => ts r' <= ts r) (Js.map_values (sensorReadings this))).
Proof.
  rewrite getLatestSensorReading_unfold. split.
  - now intros ->.
  - intros Hne. destruct (sensorReadings this) as [|[k x] m]; [contradiction|].
    unfold Js.map_values; cbn [map snd].
    destruct (fold_later_split (map snd m) x) as (l1 & l2 & Heq & H1 & H2).
    exists (fold_left later (map snd m) x). split; [reflexivity|].
    rewrite Heq. split.
    + apply in_or_app; right; now left.
    + apply Forall_app; split.
      * eapply Forall_impl; [|exact H1]. simpl; intros; lia.
      * constructor; [lia | exact H2].
Qed.

(** C6: for a positive [k] and a storage of N readings,
    [getRecentSensorReadings(k)] returns min(k, N) stored readings in
    descending order of timestamp; they are the most recent ones, in that no
    stored reading left out is newer than one returned; and all readings are
    returned when N <= k. *)
Theorem getRecentSensorReadings_most_recent (k : Z) (this : MemStorage) :
  0 < k ->
  List.length (getRecentSensorReadings k this)
  = Nat.min (Z.to_nat k) (List.length (sensorReadings this))
  /\ StronglySorted (fun a b => ts b <= ts a) (getRecentSensorReadings k this)
  /\ (exists older,
        Permutation (getRecentSensorReadings k this ++ older)
                    (Js.map_values (sensorReadings this))
        /\ Forall (fun b => Forall (fun a => ts b <= ts a)
                                   (getRecentSensorReadings k this)) older)
  /\ (Z.of_nat (List.length (sensorReadings this)) <= k ->
      Permutation (getRecentSensorReadings k this)
                  (Js.map_values (sensorReadings this))).
Proof.
  intros Hk. unfold getRecentSensorReadings.
  rewrite JsFacts.slice_0_pos by exact Hk.
  set (all := Js.map_values (sensorReadings this)).
  assert (Hlen : List.length all = List.length (sensorReadings this))
    by apply length_map.
  pose proof (JsFacts.sort_sorted ts all) as Hs.
  change (Js.by_key_desc ts) with newest_first in Hs.
  repeat split.
  - rewrite length_firstn, JsFacts.sort_length, Hlen. reflexivity.
  - now apply (JsFacts.sorted_firstn ts).
  - exists (skipn (Z.to_nat k) (Js.sort newest_first all)). split.
    + rewrite firstn_skipn. apply JsFacts.sort_perm.
    + now apply (JsFacts.sorted_cut ts).
  - intros Hall. rewrite firstn_all2; [apply JsFacts.sort_perm|].
    rewrite JsFacts.sort_length, Hlen. lia.
Qed.

Lemma getRecentSensorReadings_most_recent_witness :
  0 < 2
  /\ getRecentSensorReadings 2 Samples.three_readings
     = [Samples.reading2; Samples.reading3]
  /\ List.length (getRecentSensorReadings 2 Samples.three_readings)
     = Nat.min (Z.to_nat 2) (List.length (sensorReadings Samples.three_readings)).
Proof.
  split; [lia|]. split; [reflexivity|].
  apply (getRecentSensorReadings_most_recent 2 Samples.three_readings). lia.
Defined.

(** C10: in a reachable storage, a stored reading that shares the timestamp
    of the reading returned by [getLatestSensorReading] is that reading or has
    a greater id: on a tie for the maximal timestamp the earliest-created
    reading is returned. *)
Theorem getLatestSensorReading_tie_earliest
    (this : MemStorage) (r r' : SensorReading.t) :
  reachable this ->
  getLatestSensorReading this = Some r ->
  In r' (Js.map_values (sensorReadings this)) ->
  ts r' = ts r ->
  r' = r \/ SensorReading.id r < SensorReading.id r'.
Proof.
  intros Hreach Hlatest Hin Hts.
  apply reachable_well_keyed in Hreach.
  pose proof (ids_of_values this Hreach) as Hids.
  destruct Hreach as (_ & Hsorted & _). rewrite <- Hids in Hsorted.
  rewrite getLatestSensorReading_unfold in Hlatest.
  destruct (Js.map_values (sensorReadings this)) as [|x xs]; [discriminate|].
  injection Hlatest as Hr.
  destruct (fold_later_split xs x) as (l1 & l2 & Heq & H1 & _).
  rewrite Hr in Heq, H1. rewrite Heq in Hin, Hsorted.
  apply in_app_or in Hin. destruct Hin as [Hin|[Hin|Hin]].
  - rewrite Forall_forall in H1. apply H1 in Hin. lia.
  - now left.
  - right. rewrite map_app in Hsorted; simpl in Hsorted.
    apply lt_sorted_after in Hsorted. rewrite Forall_forall in Hsorted.
    apply Hsorted. now apply in_map.
Qed.

Lemma getLatestSensorReading_tie_earliest_witness :
  reachable Samples.three_readings
  /\ getLatestSensorReading Samples.three_readings = Some Samples.reading2
  /\ In Samples.reading3 (Js.map_values (sensorReadings Samples.three_readings))
  /\ ts Samples.reading3 = ts Samples.reading2
  /\ (Samples.reading3 = Samples.reading2
      \/ SensorReading.id Samples.reading2 < SensorReading.id Samples.reading3).
Proof.
  assert (Hreach : reachable Samples.three_readings)
    by apply reachable_createSensorReading_each, reachable_constructor.
  assert (Hin : In Samples.reading3
                  (Js.map_values (sensorReadings Samples.three_readings)))
    by (simpl; auto).
  repeat split; trivial.
  exact (getLatestSensorReading_tie_earliest
           Samples.three_readings Samples.reading2 Samples.reading3
           Hreach eq_refl Hin eq_refl).
Defined.

Lemma map_set_In {V : Type} (k : Z) (v : V) (m : list (Z * V)) :
  In (k, v) (Js.map_set k v m).
Proof.
  induction m as [|[k' v'] m IH]; simpl; [now left|].
  destruct (k' =? k); [now left | now right].
Qed.

(** [createUser] never looks at the usernames already stored: whatever the
    storage holds, the candidate is stored under a fresh id. *)
Lemma createUser_always_stores (insertUser : InsertUser.t) (this : MemStorage) :
  User.username (fst (createUser insertUser this)) = InsertUser.username insertUser
  /\ In (currentUserId this, fst (createUser insertUser this))
        (users (snd (createUser insertUser this))).
Proof. split; [reflexivity | apply map_set_In]. Qed.

(** C2, at the input where the code departs from it: a second [createUser]
    with a username that is already stored succeeds, and the storage then
    holds two users with that username. *)
Theorem createUser_accepts_duplicate_username :
  users (snd (createUser Samples.alice_again
                (snd (createUser Samples.alice constructor))))
  = [(1, User.mk 1 "alice" "secret"); (2, User.mk 2 "alice" "other")]
  /\ fst (createUser Samples.alice_again
            (snd (createUser Samples.alice constructor)))
     = User.mk 2 "alice" "other".
Proof. split; reflexivity. Qed.

End StorageFacts.

(* ------------------------------------------------------------------------- *)
(** * Telemetry intake and broadcast hub *)
(* ------------------------------------------------------------------------- *)

Module RoutesFacts.
Import Schema Storage Routes.

Lemma json_null_dec (data : json) : {data = JNull} + {data <> JNull}.
Proof. destruct data; (now left) || (right; discriminate). Qed.

Lemma is_OPEN_iff (st : ReadyState) : is_OPEN st = true <-> st = OPEN.
Proof. destruct st; simpl; split; congruence. Qed.

Lemma forEach_send (r : SensorReading.t) (conns : list WebSocket) : forall s,
  fold_left
    (fun acc ws =>
       if is_OPEN (readyState acc ws) then send ws (sensor_data r) acc else acc)
    conns s
  = {| storage := storage s; wsConnections := wsConnections s;
       readyState := readyState s;
       sent := sent s ++ map (fun ws => (ws, sensor_data r))
                             (filter (fun ws => is_OPEN (readyState s ws)) conns) |}.
Proof.
  induction conns as [|ws conns IH]; intros [st c rs sn]; simpl.
  - now rewrite app_nil_r.
  - destruct (is_OPEN (rs ws)); rewrite IH; simpl; [|reflexivity].
    now rewrite <- app_assoc.
Qed.

Lemma broadcast_eq (r : SensorReading.t) (s : Server) :
  broadcast r s
  = {| storage := storage s; wsConnections := wsConnections s;
       readyState := readyState s; sent := sent s ++ fan_out r s |}.
Proof. unfold broadcast, fan_out. apply forEach_send. Qed.

Lemma fan_out_handles (r : SensorReading.t) (s : Server) :
  map fst (fan_out r s)
  = filter (fun ws => is_OPEN (readyState s ws)) (wsConnections s).
Proof.
  unfold fan_out. rewrite map_map; simpl. apply map_id.
Qed.

(** C7: when a stored reading is broadcast, every registered socket that is
    open is sent exactly one envelope, a [sensor_data] envelope carrying that
    reading, and nothing is sent to any other socket; the number of sends is
    the number of registered sockets when all are open; the set of registered
    sockets (and the storage) is left as it was. *)
Theorem broadcast_once_to_each_open (r : SensorReading.t) (s : Server) :
  NoDup (wsConnections s) ->
  exists sends,
    sent (broadcast r s) = sent s ++ sends
    /\ wsConnections (broadcast r s) = wsConnections s
    /\ storage (broadcast r s) = storage s
    /\ Forall (fun m => snd m = sensor_data r) sends
    /\ (forall ws, In ws (wsConnections s) -> readyState s ws = OPEN ->
         count_occ Nat.eq_dec (map fst sends) ws = 1%nat)
    /\ (forall ws, readyState s ws <> OPEN -> ~ In ws (map fst sends))
    /\ (forall ws, ~ In ws (wsConnections s) -> ~ In ws (map fst sends))
    /\ ((forall ws, In ws (wsConnections s) -> readyState s ws = OPEN) ->
        List.length sends = List.length (wsConnections s)).
Proof.
  intros Hnd. exists (fan_out r s). rewrite broadcast_eq; simpl.
  rewrite fan_out_handles.
  repeat split.
  - unfold fan_out. apply Forall_forall. intros m Hm.
    apply in_map_iff in Hm as (ws & <- & _). reflexivity.
  - intros ws Hin Hopen.
    apply (proj1 (NoDup_count_occ' Nat.eq_dec _)).
    + now apply NoDup_filter.
    + apply filter_In. split; [exact Hin | now apply is_OPEN_iff].
  - intros ws Hclosed Hin. apply filter_In in Hin as [_ Hopen].
    now apply Hclosed, is_OPEN_iff.
  - intros ws Hout Hin. apply filter_In in Hin as [Hin _]. now apply Hout.
  - intros Hall. unfold fan_out. rewrite length_map. f_equal.
    apply forallb_filter_id. apply forallb_forall.
    intros ws Hin. now apply is_OPEN_iff, Hall.
Qed.

Lemma broadcast_once_to_each_open_witness :
  NoDup (wsConnections Samples.hub)
  /\ sent (broadcast Samples.reading3 Samples.hub)
     = [(10%nat, sensor_data Samples.reading3);
        (12%nat, sensor_data Samples.reading3)]
  /\ exists sends,
       sent (broadcast Samples.reading3 Samples.hub) = sent Samples.hub ++ sends
       /\ wsConnections (broadcast Samples.reading3 Samples.hub)
          = wsConnections Samples.hub
       /\ storage (broadcast Samples.reading3 Samples.hub) = storage Samples.hub
       /\ Forall (fun m => snd m = sensor_data Samples.reading3) sends
       /\ (forall ws, In ws (wsConnections Samples.hub) ->
            readyState Samples.hub ws = OPEN ->
            count_occ Nat.eq_dec (map fst sends) ws = 1%nat)
       /\ (forall ws, readyState Samples.hub ws <> OPEN -> ~ In ws (map fst sends))
       /\ (forall ws, ~ In ws (wsConnections Samples.hub) ->
            ~ In ws (map fst sends))
       /\ ((forall ws, In ws (wsConnections Samples.hub) ->
             readyState Samples.hub ws = OPEN) ->
           List.length sends = List.length (wsConnections Samples.hub)).
Proof.
  assert (Hnd : NoDup (wsConnections Samples.hub)).
  { simpl. repeat constructor; simpl; intuition discriminate. }
  split; [exact Hnd|]. split; [reflexivity|].
  exact (broadcast_once_to_each_open Samples.reading3 Samples.hub Hnd).
Defined.

Section Intake.
Context `{ColumnChecks}.

(** The set of registered sockets keeps holding each socket once. *)
Lemma dispatch_NoDup (ev : Event) (s : Server) :
  NoDup (wsConnections s) -> NoDup (wsConnections (dispatch ev s)).
Proof.
  intros Hnd. destruct ev as [topic message now|ws|ws|ws]; unfold dispatch; simpl.
  - unfold on_message. destruct (sensorReading_of message); simpl; [|exact Hnd].
    now rewrite broadcast_eq.
  - destruct (getLatestSensorReading (storage s)); simpl;
      now apply JsFacts.set_add_NoDup.
  - now apply JsFacts.set_delete_NoDup.
  - now apply JsFacts.set_delete_NoDup.
Qed.

Lemma run_NoDup (evs : list Event) : forall s,
  NoDup (wsConnections s) -> NoDup (wsConnections (run evs s)).
Proof.
  induction evs as [|ev evs IH]; intros s Hnd; simpl; [exact Hnd|].
  now apply IH, dispatch_NoDup.
Qed.

Lemma dispatch_connection (ws : WebSocket) (s : Server) :
  dispatch (ws_connection ws) s
  = {| storage := storage s;
       wsConnections := Js.set_add ws (wsConnections s);
       readyState := readyState s;
       sent := (sent s ++ [(ws, connection_status "connected")])
               ++ match getLatestSensorReading (storage s) with
                  | Some r => [(ws, sensor_data r)]
                  | None => []
                  end |}.
Proof.
  unfold dispatch; simpl.
  destruct (getLatestSensorReading (storage s)); simpl; [reflexivity|].
  now rewrite app_nil_r.
Qed.

(** C8: on a new connection the socket is registered and is sent one
    [connection_status] envelope with status "connected" first; after it,
    one [sensor_data] envelope with the latest reading when the storage has
    a reading, and nothing more when the storage is empty. *)
Theorem connection_status_then_snapshot (ws : WebSocket) (s : Server) :
  In ws (wsConnections (dispatch (ws_connection ws) s))
  /\ storage (dispatch (ws_connection ws) s) = storage s
  /\ exists snapshot,
       sent (dispatch (ws_connection ws) s)
       = sent s ++ (ws, connection_status "connected") :: snapshot
       /\ match getLatestSensorReading (storage s) with
          | Some r => snapshot = [(ws, sensor_data r)]
          | None => snapshot = []
          end
       /\ (sensorReadings (storage s) = [] -> snapshot = [])
       /\ (sensorReadings (storage s) <> [] ->
           exists r, snapshot = [(ws, sensor_data r)]
                     /\ getLatestSensorReading (storage s) = Some r).
Proof.
  rewrite dispatch_connection; simpl.
  split; [apply JsFacts.set_add_In; now left|].
  split; [reflexivity|].
  pose proof (StorageFacts.getLatestSensorReading_unfold (storage s)) as Hlatest.
  exists (match getLatestSensorReading (storage s) with
          | Some r => [(ws, sensor_data r)]
          | None => []
          end).
  split; [now rewrite <- app_assoc|].
  split; [destruct (getLatestSensorReading (storage s)); reflexivity|].
  split.
  - intros Hempty. rewrite Hempty in Hlatest. now rewrite Hlatest.
  - intros Hne. destruct (sensorReadings (storage s)) as [|[k x] m]; [contradiction|].
    simpl in Hlatest. rewrite Hlatest. eauto.
Qed.

Lemma dispatch_rejected (topic : string) (message : option json) (now : Z)
    (s : Server) :
  sensorReading_of message = None ->
  dispatch (mqtt_message topic message now) s = s.
Proof.
  intros Hbad. unfold dispatch; simpl. unfold on_message. now rewrite Hbad.
Qed.

Lemma dispatch_accepted (topic : string) (message : option json) (now : Z)
    (s : Server) (sensorReading : InsertSensorReading.t) :
  sensorReading_of message = Some sensorReading ->
  dispatch (mqtt_message topic message now) s
  = {| storage := snd (createSensorReading sensorReading now (storage s));
       wsConnections := wsConnections s;
       readyState := readyState s;
       sent := sent s
               ++ fan_out (fst (createSensorReading sensorReading now (storage s))) s |}.
Proof.
  intros Hok. unfold dispatch; simpl. unfold on_message. rewrite Hok.
  simpl. now rewrite broadcast_eq.
Qed.

Lemma getProp_defined (data : json) (key : string) :
  data <> JNull -> exists v, getProp data key = Some v.
Proof. destruct data; simpl; intros Hne; [contradiction|eauto..]. Qed.

Lemma insertSensorReadingSchema_parse_None (d l e : option json) :
  insertSensorReadingSchema_parse d l e = None <->
  dhtTemperature_schema d = None
  \/ lm35Temperature_schema l = None
  \/ ledLevel_schema e = None.
Proof.
  unfold insertSensorReadingSchema_parse.
  destruct (dhtTemperature_schema d), (lm35Temperature_schema l),
    (ledLevel_schema e); intuition discriminate.
Qed.

(** What makes the [try] block throw: the payload is no JSON, it is the
    JSON [null], or one of the three fields fails its schema. *)
Lemma sensorReading_of_None (message : option json) :
  sensorReading_of message = None <->
  message = None
  \/ message = Some JNull
  \/ exists data suhuDHT suhuLM35 LED,
       message = Some data
       /\ getProp data "suhuDHT" = Some suhuDHT
       /\ getProp data "suhuLM35" = Some suhuLM35
       /\ getProp data "LED" = Some LED
       /\ (dhtTemperature_schema suhuDHT = None
           \/ lm35Temperature_schema suhuLM35 = None
           \/ ledLevel_schema LED = None).
Proof.
  split.
  - intros Hbad. destruct message as [data|]; [|now left]. right.
    destruct (json_null_dec data) as [->|Hne]; [now left|right].
    destruct (getProp_defined data "suhuDHT" Hne) as [d Hd].
    destruct (getProp_defined data "suhuLM35" Hne) as [l Hl].
    destruct (getProp_defined data "LED" Hne) as [e He].
    exists data, d, l, e. repeat split; trivial.
    simpl in Hbad. rewrite Hd, Hl, He in Hbad.
    now apply insertSensorReadingSchema_parse_None.
  - intros [->|[->|(data & d & l & e & -> & Hd & Hl & He & Hbad)]];
      [reflexivity..|].
    simpl. rewrite Hd, Hl, He.
    now apply insertSensorReadingSchema_parse_None.
Qed.

(** A temperature that is not a number fails the schema. *)
Lemma text_temperature_rejected (text : string) :
  dhtTemperature_schema (Some (JString text)) = None.
Proof. reflexivity. Qed.

(** C3: a message whose payload does not parse or does not validate leaves
    the server as it was (no reading stored, nothing sent), and a valid
    message that follows is handled as if the bad one had not arrived: its
    reading is stored and sent to every open registered socket. *)
Theorem malformed_message_is_dropped (topic : string) (message : option json)
    (now : Z) (s : Server) :
  sensorReading_of message = None ->
  dispatch (mqtt_message topic message now) s = s
  /\ forall topic' message' now' sensorReading,
       sensorReading_of message' = Some sensorReading ->
       dispatch (mqtt_message topic' message' now')
                (dispatch (mqtt_message topic message now) s)
       = {| storage := snd (createSensorReading sensorReading now' (storage s));
            wsConnections := wsConnections s;
            readyState := readyState s;
            sent := sent s
                    ++ fan_out (fst (createSensorReading sensorReading now'
                                                         (storage s))) s |}.
Proof.
  intros Hbad. split; [now apply dispatch_rejected|].
  intros topic' message' now' sensorReading Hok.
  rewrite (dispatch_rejected topic message now s Hbad).
  now apply dispatch_accepted.
Qed.

(** A [null] indicator level fails the schema, whatever the refinements. *)
Lemma null_ledLevel_rejected : ledLevel_schema (Some JNull) = None.
Proof. reflexivity. Qed.

(** C9, amended: a payload whose two temperature fields are absent or
    [null] and whose indicator level is absent validates, and the reading
    stored for it has both temperatures [null] and indicator level 0. *)
Theorem empty_payload_is_stored (topic : string) (data : json) (now : Z)
    (s : Server) (suhuDHT suhuLM35 : option json) :
  getProp data "suhuDHT" = Some suhuDHT ->
  getProp data "suhuLM35" = Some suhuLM35 ->
  getProp data "LED" = Some None ->
  absent_or_null suhuDHT ->
  absent_or_null suhuLM35 ->
  (exists sensorReading, sensorReading_of (Some data) = Some sensorReading)
  /\ sensorReadings (storage (dispatch (mqtt_message topic (Some data) now) s))
     = Js.map_set (currentReadingId (storage s))
         {| SensorReading.id := currentReadingId (storage s);
            SensorReading.dhtTemperature := None;
            SensorReading.lm35Temperature := None;
            SensorReading.ledLevel := 0%float;
            SensorReading.timestamp := now |}
         (sensorReadings (storage s)).
Proof.
  intros Hd Hl He Had Hal.
  assert (Hok : exists d l,
             sensorReading_of (Some data)
             = Some (InsertSensorReading.mk d l Js.Undefined)
             /\ Js.coalesce (Js.widen d) None = None
             /\ Js.coalesce (Js.widen l) None = None).
  { simpl. rewrite Hd, Hl, He.
    destruct Had as [-> | ->], Hal as [-> | ->]; simpl;
      eexists _, _; (split; [reflexivity|]); split; reflexivity. }
  destruct Hok as (d & l & Hok & Hdn & Hln).
  split; [eauto|].
  rewrite (dispatch_accepted _ _ _ _ _ Hok); simpl.
  now rewrite Hdn, Hln.
Qed.
End Intake.

Lemma malformed_message_is_dropped_witness :
  @sensorReading_of Samples.unrefined (Some Samples.text_temperature) = None
  /\ @dispatch Samples.unrefined
       (mqtt_message Samples.topic (Some Samples.text_temperature) 7) Samples.hub
     = Samples.hub
  /\ sent (@dispatch Samples.unrefined
             (mqtt_message Samples.topic (Some Samples.telemetry) 8)
             (@dispatch Samples.unrefined
                (mqtt_message Samples.topic (Some Samples.text_temperature) 7)
                Samples.hub))
     = [(10%nat, sensor_data (SensorReading.mk 4 (Some 26.5%float)
                                (Some 27.5%float) 2%float 8));
        (12%nat, sensor_data (SensorReading.mk 4 (Some 26.5%float)
                                (Some 27.5%float) 2%float 8))].
Proof.
  pose proof (@malformed_message_is_dropped Samples.unrefined Samples.topic
                (Some Samples.text_temperature) 7 Samples.hub eq_refl)
    as [Hsame Hnext].
  split; [reflexivity|]. split; [exact Hsame|].
  rewrite (Hnext Samples.topic (Some Samples.telemetry) 8 Samples.measured eq_refl).
  reflexivity.
Defined.

(** C9 as stated fails: a payload with all three fields [null] has every
    field absent or null, yet it does not validate and the server is left as
    it was, with no reading stored; so not every payload whose three fields
    are absent or null validates. *)
Lemma all_null_payload_is_rejected :
  (exists suhuDHT suhuLM35 LED,
      getProp Samples.all_null "suhuDHT" = Some suhuDHT
      /\ getProp Samples.all_null "suhuLM35" = Some suhuLM35
      /\ getProp Samples.all_null "LED" = Some LED
      /\ absent_or_null suhuDHT /\ absent_or_null suhuLM35 /\ absent_or_null LED)
  /\ @sensorReading_of Samples.unrefined (Some Samples.all_null) = None
  /\ @dispatch Samples.unrefined
       (mqtt_message Samples.topic (Some Samples.all_null) 7) Samples.hub
     = Samples.hub
  /\ ~ (forall data suhuDHT suhuLM35 LED,
          getProp data "suhuDHT" = Some suhuDHT ->
          getProp data "suhuLM35" = Some suhuLM35 ->
          getProp data "LED" = Some LED ->
          absent_or_null suhuDHT -> absent_or_null suhuLM35 -> absent_or_null LED ->
          exists sensorReading,
            @sensorReading_of Samples.unrefined (Some data) = Some sensorReading).
Proof.
  split; [|split; [reflexivity|split; [reflexivity|]]].
  - exists (Some JNull), (Some JNull), (Some JNull).
    repeat split; try reflexivity; now right.
  - intros Hclaim.
    destruct (Hclaim Samples.all_null (Some JNull) (Some JNull) (Some JNull)
                eq_refl eq_refl eq_refl
                (or_intror eq_refl) (or_intror eq_refl) (or_intror eq_refl))
      as [sensorReading Hvalid].
    discriminate Hvalid.
Qed.

Lemma empty_payload_is_stored_witness :
  getProp Samples.temperatures_null "suhuDHT" = Some (Some JNull)
  /\ getProp Samples.temperatures_null "LED" = Some None
  /\ sensorReadings
       (storage (@dispatch Samples.unrefined
                   (mqtt_message Samples.topic (Some Samples.temperatures_null) 7)
                   Samples.hub))
     = Js.map_set 4 (SensorReading.mk 4 None None 0%float 7)
         (sensorReadings Samples.three_readings).
Proof.
  split; [reflexivity|]. split; [reflexivity|].
  apply (@empty_payload_is_stored Samples.unrefined Samples.topic
           Samples.temperatures_null 7 Samples.hub (Some JNull) (Some JNull));
    try reflexivity; now right.
Defined.

End RoutesFacts.

(* ------------------------------------------------------------------------- *)
(** * The query routes *)
(* ------------------------------------------------------------------------- *)

Module QueryFacts.
Import Storage Routes.

Lemma recent_limit_twenty : recent_limit (Some "20"%string) = 20.
Proof. reflexivity. Qed.

Lemma recent_limit_absent : recent_limit None = 20.
Proof. reflexivity. Qed.

(** A [limit] that [parseInt] reads as [NaN] or as zero is replaced by 20. *)
Lemma recent_limit_falsy (query_limit : option string) :
  Js.parseInt (Js.ToString query_limit) = None
  \/ Js.parseInt (Js.ToString query_limit) = Some 0 ->
  recent_limit query_limit = 20.
Proof. unfold recent_limit. now intros [-> | ->]. Qed.

Lemma get_api_readings_recent_falsy (query_limit : option string)
    (st : MemStorage) :
  Js.parseInt (Js.ToString query_limit) = None
  \/ Js.parseInt (Js.ToString query_limit) = Some 0 ->
  get_api_readings_recent query_limit st
  = get_api_readings_recent (Some "20"%string) st.
Proof.
  intros Hfalsy. unfold get_api_readings_recent.
  now rewrite (recent_limit_falsy _ Hfalsy), recent_limit_twenty.
Qed.

(** Any other integer is passed on as it is, a negative one included. *)
Lemma recent_limit_truthy (query_limit : option string) (n : Z) :
  Js.parseInt (Js.ToString query_limit) = Some n -> n <> 0 ->
  recent_limit query_limit = n.
Proof.
  unfold recent_limit. intros -> Hn. destruct n; [contradiction|reflexivity..].
Qed.

(** With a negative [limit] the [slice] drops that many of the oldest
    readings instead of keeping the 20 newest. *)
Lemma get_api_readings_recent_negative (query_limit : option string) (n : Z)
    (st : MemStorage) :
  Js.parseInt (Js.ToString query_limit) = Some n -> n < 0 ->
  get_api_readings_recent query_limit st
  = json_readings 200
      (firstn (List.length (sensorReadings st) - Z.to_nat (- n))
              (Js.sort newest_first (Js.map_values (sensorReadings st)))).
Proof.
  intros Hparse Hneg. unfold get_api_readings_recent, getRecentSensorReadings.
  rewrite (recent_limit_truthy _ n Hparse) by lia.
  rewrite JsFacts.slice_0_neg by exact Hneg.
  rewrite JsFacts.sort_length. unfold Js.map_values. now rewrite length_map.
Qed.

(** C1, at the input where the code departs from it: [limit=-1] is a
    non-positive integer, yet the handler queries the storage with -1 and
    answers with all readings but the oldest, where [limit=20] and an absent
    [limit] answer with all three. *)
Theorem negative_limit_is_not_defaulted :
  recent_limit (Some "-1"%string) = -1
  /\ get_api_readings_recent (Some "-1"%string) Samples.three_readings
     = json_readings 200 [Samples.reading2; Samples.reading3]
  /\ get_api_readings_recent (Some "20"%string) Samples.three_readings
     = json_readings 200 [Samples.reading2; Samples.reading3; Samples.reading1]
  /\ get_api_readings_recent None Samples.three_readings
     = json_readings 200 [Samples.reading2; Samples.reading3; Samples.reading1]
  /\ get_api_readings_recent (Some "0"%string) Samples.three_readings
     = json_readings 200 [Samples.reading2; Samples.reading3; Samples.reading1].
Proof. repeat split; reflexivity. Qed.

End QueryFacts.

(* ------------------------------------------------------------------------- *)
(** * Further properties of the Reading Store *)
(* ------------------------------------------------------------------------- *)

Module StorageMore.
Import Storage Vocabulary.

#[local] Abbreviation ts := SensorReading.timestamp.

Lemma map_get_set_eq {V : Type} (k : Z) (v : V) (m : list (Z * V)) :
  Js.map_get k (Js.map_set k v m) = Some v.
Proof.
  induction m as [|[k' v'] m IH]; simpl.
  - now rewrite Z.eqb_refl.
  - destruct (k' =? k) eqn:E; simpl.
    + now rewrite Z.eqb_refl.
    + now rewrite E.
Qed.

Lemma map_get_set_neq {V : Type} (k k0 : Z) (v : V) (m : list (Z * V)) :
  k0 <> k -> Js.map_get k0 (Js.map_set k v m) = Js.map_get k0 m.
Proof.
  intros Hne. induction m as [|[k' v'] m IH]; simpl.
  - replace (k =? k0) with false; [reflexivity|].
    symmetry; apply Z.eqb_neq; congruence.
  - destruct (k' =? k) eqn:E; simpl.
    + apply Z.eqb_eq in E; subst k'.
      replace (k =? k0) with false; [reflexivity|].
      symmetry; apply Z.eqb_neq; congruence.
    + now rewrite IH.
Qed.

Lemma map_get_None_iff {V : Type} (k : Z) (m : list (Z * V)) :
  Js.map_get k m = None <-> ~ In k (map fst m).
Proof.
  induction m as [|[k' v'] m IH]; simpl; [tauto|].
  destruct (k' =? k) eqn:E.
  - apply Z.eqb_eq in E. split; [discriminate | tauto].
  - apply Z.eqb_neq in E. rewrite IH. tauto.
Qed.

Lemma map_get_Some_In {V : Type} (k : Z) (v : V) (m : list (Z * V)) :
  Js.map_get k m = Some v -> In (k, v) m.
Proof.
  induction m as [|[k' v'] m IH]; simpl; [discriminate|].
  destruct (k' =? k) eqn:E.
  - apply Z.eqb_eq in E. intros [= ->]. left; now subst.
  - intros Hget. right; now apply IH.
Qed.

Lemma ids_upto_S (n : nat) : ids_upto (S n) = ids_upto n ++ [Z.of_nat n + 1].
Proof.
  unfold ids_upto. rewrite seq_S, map_app. simpl. do 2 f_equal. lia.
Qed.

Lemma In_ids_upto (k : Z) (n : nat) :
  In k (ids_upto n) <-> 1 <= k <= Z.of_nat n.
Proof.
  unfold ids_upto. rewrite in_map_iff. split.
  - intros (i & <- & Hi). apply in_seq in Hi. lia.
  - intros Hk. exists (Z.to_nat k). split; [lia|]. apply in_seq. lia.
Qed.

Lemma ids_upto_below (n : nat) :
  Forall (fun k => k < Z.of_nat n + 1) (ids_upto n).
Proof. apply Forall_forall. intros k Hk. apply In_ids_upto in Hk. lia. Qed.

(** X1: lookup by id after [createUser]: the new user is found under its id and
    every other id answers as before. *)
Theorem getUser_after_createUser (insertUser : InsertUser.t) (this : MemStorage) :
  getUser (User.id (fst (createUser insertUser this)))
          (snd (createUser insertUser this))
  = Some (fst (createUser insertUser this))
  /\ forall id, id <> currentUserId this ->
       getUser id (snd (createUser insertUser this)) = getUser id this.
Proof.
  split.
  - apply map_get_set_eq.
  - intros id Hne. now apply map_get_set_neq.
Qed.

Lemma reachable_keys (this : MemStorage) :
  reachable this ->
  (map fst (users this) = ids_upto (List.length (users this))
   /\ currentUserId this = Z.of_nat (List.length (users this)) + 1
   /\ Forall (fun kv => fst kv = User.id (snd kv)) (users this))
  /\ (map fst (sensorReadings this) = ids_upto (List.length (sensorReadings this))
      /\ currentReadingId this = Z.of_nat (List.length (sensorReadings this)) + 1
      /\ Forall (fun kv => fst kv = SensorReading.id (snd kv)) (sensorReadings this)).
Proof.
  induction 1 as [|insertUser this Hr IH|insertReading now this Hr IH].
  - repeat split; constructor.
  - destruct IH as [(Hk & Hc & Hid) Hreadings]. split; [|exact Hreadings].
    simpl. rewrite StorageFacts.map_set_fresh
      by (rewrite Hk, Hc; apply ids_upto_below).
    rewrite map_app, length_app, Nat.add_1_r, ids_upto_S, Hk, Hc; simpl.
    repeat split.
    + lia.
    + apply Forall_app; split; [exact Hid | repeat constructor].
  - destruct IH as [Husers (Hk & Hc & Hid)]. split; [exact Husers|].
    simpl. rewrite StorageFacts.map_set_fresh
      by (rewrite Hk, Hc; apply ids_upto_below).
    rewrite map_app, length_app, Nat.add_1_r, ids_upto_S, Hk, Hc; simpl.
    repeat split.
    + lia.
    + apply Forall_app; split; [exact Hid | repeat constructor].
Qed.

(** X2: in a reachable storage both maps hold the ids 1, 2, ..., n in
    insertion order, each entry is keyed by the id of its record, and each
    counter is one more than the number of records. *)
Theorem reachable_ids_consecutive (this : MemStorage) :
  reachable this ->
  (map fst (users this) = ids_upto (List.length (users this))
   /\ currentUserId this = Z.of_nat (List.length (users this)) + 1
   /\ Forall (fun kv => fst kv = User.id (snd kv)) (users this))
  /\ (map fst (sensorReadings this) = ids_upto (List.length (sensorReadings this))
      /\ currentReadingId this = Z.of_nat (List.length (sensorReadings this)) + 1
      /\ Forall (fun kv => fst kv = SensorReading.id (snd kv)) (sensorReadings this)).
Proof. exact (reachable_keys this). Qed.

Lemma reachable_ids_consecutive_witness :
  reachable Samples.three_readings
  /\ map fst (sensorReadings Samples.three_readings) = [1; 2; 3]
  /\ currentReadingId Samples.three_readings
     = Z.of_nat (List.length (sensorReadings Samples.three_readings)) + 1.
Proof.
  assert (Hreach : reachable Samples.three_readings)
    by apply StorageFacts.reachable_createSensorReading_each, reachable_constructor.
  split; [exact Hreach|]. split; [reflexivity|].
  apply (reachable_ids_consecutive Samples.three_readings Hreach).
Defined.

(** X3: [getUser] in a reachable storage: an id from 1 up to the counter
    (excluded) finds the user with that id, any other id finds nothing. *)
Theorem getUser_range (id : Z) (this : MemStorage) :
  reachable this ->
  (1 <= id < currentUserId this ->
   exists user, getUser id this = Some user /\ User.id user = id)
  /\ (id < 1 \/ currentUserId this <= id -> getUser id this = None).
Proof.
  intros Hreach.
  destruct (reachable_keys this Hreach) as [(Hk & Hc & Hid) _].
  unfold getUser. split.
  - intros Hrange. destruct (Js.map_get id (users this)) as [user|] eqn:Hget.
    + exists user. split; [reflexivity|].
      apply map_get_Some_In in Hget. rewrite Forall_forall in Hid.
      symmetry. exact (Hid _ Hget).
    + exfalso. apply map_get_None_iff in Hget. apply Hget.
      rewrite Hk. apply In_ids_upto. lia.
  - intros Hout. apply map_get_None_iff. rewrite Hk, In_ids_upto. lia.
Qed.

Lemma getUser_range_witness :
  reachable MoreSamples.two_users
  /\ 1 <= 2 < currentUserId MoreSamples.two_users
  /\ exists user, getUser 2 MoreSamples.two_users = Some user /\ User.id user = 2.
Proof.
  assert (Hreach : reachable MoreSamples.two_users)
    by (unfold MoreSamples.two_users; repeat apply reachable_createUser;
        apply reachable_constructor).
  assert (Hrange : 1 <= 2 < currentUserId MoreSamples.two_users) by (simpl; lia).
  split; [exact Hreach|]. split; [exact Hrange|].
  exact (proj1 (getUser_range 2 MoreSamples.two_users Hreach) Hrange).
Defined.

Lemma find_Some {A : Type} (p : A -> bool) (xs : list A) (x : A) :
  Js.find p xs = Some x -> In x xs /\ p x = true.
Proof.
  induction xs as [|y xs IH]; simpl; [discriminate|].
  destruct (p y) eqn:E.
  - intros [= ->]. split; [now left | exact E].
  - intros Hfind. destruct (IH Hfind). split; [now right | assumption].
Qed.

Lemma find_None_iff {A : Type} (p : A -> bool) (xs : list A) :
  Js.find p xs = None <-> forall x, In x xs -> p x = false.
Proof.
  induction xs as [|y xs IH]; simpl.
  - split; [intros _ x [] | reflexivity].
  - destruct (p y) eqn:E.
    + split; [discriminate|]. intros Hall.
      specialize (Hall y (or_introl eq_refl)). congruence.
    + rewrite IH. split.
      * intros Hall x [<-|Hin]; [exact E | now apply Hall].
      * intros Hall x Hin. apply Hall. now right.
Qed.

Lemma find_snoc {A : Type} (p : A -> bool) (xs : list A) (x : A) :
  Js.find p (xs ++ [x])
  = match Js.find p xs with
    | Some y => Some y
    | None => if p x then Some x else None
    end.
Proof.
  induction xs as [|y xs IH]; simpl; [reflexivity|].
  destruct (p y); [reflexivity | exact IH].
Qed.

(** X4: [getUserByUsername] answers with a stored user of that username, and
    with nothing exactly when no stored user has it. *)
Theorem getUserByUsername_sound_complete (username : string) (this : MemStorage) :
  (forall user,
      getUserByUsername username this = Some user ->
      In user (Js.map_values (users this)) /\ User.username user = username)
  /\ (getUserByUsername username this = None <->
      forall user, In user (Js.map_values (users this)) ->
                   User.username user <> username).
Proof.
  unfold getUserByUsername. split.
  - intros user Hfind. apply find_Some in Hfind as [Hin Hp].
    split; [exact Hin | now apply String.eqb_eq].
  - rewrite find_None_iff. split; intros Hall user Hin.
    + apply String.eqb_neq. now apply Hall.
    + apply String.eqb_neq. now apply Hall.
Qed.

(** X5: [getUserByUsername] after [createUser] on a reachable storage: a username
    that was found before is still answered with the same, older user; the new
    user is found only under a username that was not stored before. *)
Theorem getUserByUsername_after_createUser
    (username : string) (insertUser : InsertUser.t) (this : MemStorage) :
  reachable this ->
  getUserByUsername username (snd (createUser insertUser this))
  = match getUserByUsername username this with
    | Some older => Some older
    | None =>
        if String.eqb (InsertUser.username insertUser) username
        then Some (fst (createUser insertUser this))
        else None
    end.
Proof.
  intros Hreach.
  destruct (reachable_keys this Hreach) as [(Hk & Hc & _) _].
  unfold getUserByUsername; simpl.
  rewrite StorageFacts.map_set_fresh by (rewrite Hk, Hc; apply ids_upto_below).
  unfold Js.map_values. rewrite map_app; simpl. now rewrite find_snoc.
Qed.

Lemma getUserByUsername_after_createUser_witness :
  reachable (snd (createUser Samples.alice constructor))
  /\ getUserByUsername "alice" MoreSamples.two_users
     = Some (User.mk 1 "alice" "secret").
Proof.
  assert (Hreach : reachable (snd (createUser Samples.alice constructor)))
    by apply reachable_createUser, reachable_constructor.
  split; [exact Hreach|].
  exact (getUserByUsername_after_createUser "alice" Samples.alice_again
           (snd (createUser Samples.alice constructor)) Hreach).
Defined.

Lemma getLatestSensorReading_In (this : MemStorage) (r : SensorReading.t) :
  getLatestSensorReading this = Some r ->
  In r (Js.map_values (sensorReadings this)).
Proof.
  rewrite StorageFacts.getLatestSensorReading_unfold.
  destruct (Js.map_values (sensorReadings this)) as [|x xs]; [discriminate|].
  intros [= <-].
  destruct (StorageFacts.fold_later_split xs x) as (l1 & l2 & Heq & _).
  rewrite Heq. apply in_or_app; right; now left.
Qed.

(** X6: [getLatestSensorReading] after [createSensorReading] on a reachable
    storage: the new reading is the latest when the storage was empty or when
    its timestamp is strictly greater than that of the former latest reading;
    otherwise the former latest reading stays. *)
Theorem getLatestSensorReading_after_createSensorReading
    (insertReading : InsertSensorReading.t) (now : Z) (this : MemStorage) :
  reachable this ->
  getLatestSensorReading (snd (createSensorReading insertReading now this))
  = match getLatestSensorReading this with
    | None => Some (fst (createSensorReading insertReading now this))
    | Some former =>
        if now >? ts former
        then Some (fst (createSensorReading insertReading now this))
        else Some former
    end.
Proof.
  intros Hreach.
  destruct (reachable_keys this Hreach) as [_ (Hk & Hc & _)].
  rewrite !StorageFacts.getLatestSensorReading_unfold; simpl.
  rewrite StorageFacts.map_set_fresh by (rewrite Hk, Hc; apply ids_upto_below).
  unfold Js.map_values. rewrite map_app; simpl.
  destruct (map snd (sensorReadings this)) as [|x xs]; simpl; [reflexivity|].
  rewrite fold_left_app; simpl. unfold later at 1; simpl.
  now destruct (now >? ts (fold_left later xs x)).
Qed.

Lemma getLatestSensorReading_after_createSensorReading_witness :
  reachable Samples.three_readings
  /\ getLatestSensorReading
       (snd (createSensorReading Samples.blank 7 Samples.three_readings))
     = Some Samples.reading2.
Proof.
  assert (Hreach : reachable Samples.three_readings)
    by apply StorageFacts.reachable_createSensorReading_each, reachable_constructor.
  split; [exact Hreach|].
  exact (getLatestSensorReading_after_createSensorReading
           Samples.blank 7 Samples.three_readings Hreach).
Defined.

Lemma fold_later_ge (xs : list SensorReading.t) : forall x,
  ts x <= ts (fold_left later xs x).
Proof.
  induction xs as [|y xs IH]; intros x; simpl; [lia|].
  unfold later at 2. destruct (ts y >? ts x) eqn:E.
  - apply Z.gtb_lt in E. specialize (IH y). lia.
  - apply IH.
Qed.

(** The fold, read from the right: the first element stays unless the fold of
    the rest is strictly later. *)
Lemma fold_later_cons (xs : list SensorReading.t) : forall x y,
  fold_left later (y :: xs) x
  = if ts (fold_left later xs y) >? ts x then fold_left later xs y else x.
Proof.
  induction xs as [|z xs IH]; intros x y.
  - reflexivity.
  - change (fold_left later (y :: z :: xs) x)
      with (fold_left later (z :: xs) (later x y)).
    unfold later at 2. destruct (ts y >? ts x) eqn:E.
    + apply Z.gtb_lt in E.
      pose proof (fold_later_ge (z :: xs) y) as Hge.
      replace (ts (fold_left later (z :: xs) y) >? ts x) with true; [reflexivity|].
      symmetry. apply Z.gtb_lt. lia.
    + assert (E' : ts y <= ts x)
        by (rewrite Z.gtb_ltb in E; apply Z.ltb_ge in E; lia).
      rewrite (IH x z), (IH y z).
      destruct (ts (fold_left later xs z) >? ts x) eqn:Ex.
      * pose proof (proj1 (Z.gtb_lt _ _) Ex) as Hx.
        replace (ts (fold_left later xs z) >? ts y) with true
          by (symmetry; apply Z.gtb_lt; lia).
        now rewrite Ex.
      * assert (Ex' : ts (fold_left later xs z) <= ts x)
          by (rewrite Z.gtb_ltb in Ex; apply Z.ltb_ge in Ex; lia).
        destruct (ts (fold_left later xs z) >? ts y).
        -- now rewrite Ex.
        -- now rewrite E.
Qed.

Lemma sort_newest_first_head (xs : list SensorReading.t) : forall x,
  hd_error (Js.sort newest_first (x :: xs)) = Some (fold_left later xs x).
Proof.
  induction xs as [|y xs IH]; intros x.
  - reflexivity.
  - rewrite fold_later_cons. specialize (IH y).
    change (Js.sort newest_first (x :: y :: xs))
      with (Js.sort_insert newest_first x (Js.sort newest_first (y :: xs))).
    destruct (Js.sort newest_first (y :: xs)) as [|m rest]; [discriminate|].
    simpl in IH. injection IH as Hm. rewrite <- Hm. simpl.
    unfold newest_first at 1. rewrite Z.gtb_ltb.
    destruct (ts m - ts x <=? 0) eqn:E.
    + apply Z.leb_le in E.
      replace (ts x <? ts m) with false by (symmetry; apply Z.ltb_ge; lia).
      reflexivity.
    + apply Z.leb_gt in E.
      replace (ts x <? ts m) with true by (symmetry; apply Z.ltb_lt; lia).
      reflexivity.
Qed.

(** X7: the two queries agree: for a positive limit the first reading that
    [getRecentSensorReadings] returns is the one [getLatestSensorReading]
    returns, ties included, and both return nothing on an empty storage. *)
Theorem getRecentSensorReadings_head_is_latest (k : Z) (this : MemStorage) :
  0 < k ->
  hd_error (getRecentSensorReadings k this) = getLatestSensorReading this.
Proof.
  intros Hk. unfold getRecentSensorReadings.
  rewrite JsFacts.slice_0_pos by exact Hk.
  rewrite StorageFacts.getLatestSensorReading_unfold.
  destruct (Z.to_nat k) as [|n] eqn:En; [lia|].
  destruct (Js.map_values (sensorReadings this)) as [|x xs]; [reflexivity|].
  rewrite <- sort_newest_first_head.
  now destruct (Js.sort newest_first (x :: xs)).
Qed.

Lemma getRecentSensorReadings_head_is_latest_witness :
  0 < 1
  /\ hd_error (getRecentSensorReadings 1 Samples.three_readings)
     = Some Samples.reading2.
Proof.
  split; [lia|].
  apply (getRecentSensorReadings_head_is_latest 1 Samples.three_readings). lia.
Defined.

Lemma slice_0_0 {A : Type} (xs : list A) : Js.slice 0 0 xs = [].
Proof.
  unfold Js.slice. replace (0 <? 0) with false by reflexivity.
  rewrite (Z.min_l 0) by lia. reflexivity.
Qed.

Lemma slice_0_prefix {A : Type} (limit : Z) (xs : list A) :
  exists n, Js.slice 0 limit xs = firstn n xs.
Proof.
  destruct (Z.ltb_spec limit 0) as [Hneg|Hnonneg].
  - eexists. now apply JsFacts.slice_0_neg.
  - destruct (Z.eq_dec limit 0) as [->|Hnz].
    + exists 0%nat. apply slice_0_0.
    + eexists. apply JsFacts.slice_0_pos. lia.
Qed.

(** X8: whatever the limit, zero and negative ones included,
    [getRecentSensorReadings] returns stored readings, each at most as often
    as it is stored, in descending order of timestamp, and none newer is left
    out; a zero limit returns nothing. *)
Theorem getRecentSensorReadings_any_limit (limit : Z) (this : MemStorage) :
  StronglySorted (fun a b => ts b <= ts a) (getRecentSensorReadings limit this)
  /\ (exists older,
        Permutation (getRecentSensorReadings limit this ++ older)
                    (Js.map_values (sensorReadings this))
        /\ Forall (fun b => Forall (fun a => ts b <= ts a)
                                   (getRecentSensorReadings limit this)) older)
  /\ (List.length (getRecentSensorReadings limit this)
      <= List.length (sensorReadings this))%nat
  /\ (limit = 0 -> getRecentSensorReadings limit this = [])
  /\ (limit < 0 ->
      List.length (getRecentSensorReadings limit this)
      = (List.length (sensorReadings this) - Z.to_nat (- limit))%nat).
Proof.
  unfold getRecentSensorReadings.
  set (all := Js.map_values (sensorReadings this)).
  destruct (slice_0_prefix limit (Js.sort newest_first all)) as [n Hn].
  pose proof (JsFacts.sort_sorted ts all) as Hs.
  change (Js.by_key_desc ts) with newest_first in Hs.
  repeat split.
  - rewrite Hn. now apply (JsFacts.sorted_firstn ts).
  - rewrite Hn. exists (skipn n (Js.sort newest_first all)). split.
    + rewrite firstn_skipn. apply JsFacts.sort_perm.
    + now apply (JsFacts.sorted_cut ts).
  - rewrite Hn, length_firstn, JsFacts.sort_length.
    unfold all, Js.map_values. rewrite length_map. lia.
  - intros ->. apply slice_0_0.
  - intros Hneg. rewrite JsFacts.slice_0_neg by exact Hneg.
    rewrite length_firstn, JsFacts.sort_length.
    unfold all, Js.map_values. rewrite length_map. lia.
Qed.

End StorageMore.

(* ------------------------------------------------------------------------- *)
(** * Further properties of the routes and the hub *)
(* ------------------------------------------------------------------------- *)

Module RoutesMore.
Import Schema Storage Routes Vocabulary.

#[local] Abbreviation ts := SensorReading.timestamp.

Lemma map_set_not_nil {V : Type} (k : Z) (v : V) (m : list (Z * V)) :
  Js.map_set k v m <> [].
Proof. destruct m as [|[k' v'] m]; simpl; [|destruct (k' =? k)]; discriminate. Qed.

(** X9: the latest route answers 404 exactly on an empty storage, otherwise 200
    with a stored reading of maximal timestamp; once a reading has been
    created it never answers 404. *)
Theorem get_api_readings_latest_status (st : MemStorage) :
  (sensorReadings st = [] ->
   get_api_readings_latest st = json_error 404 "No readings available")
  /\ (sensorReadings st <> [] ->
      exists reading,
        get_api_readings_latest st = json_reading 200 reading
        /\ In reading (Js.map_values (sensorReadings st))
        /\ Forall (fun r => ts r <= ts reading) (Js.map_values (sensorReadings st)))
  /\ (forall insertReading now,
        exists reading,
          get_api_readings_latest (snd (createSensorReading insertReading now st))
          = json_reading 200 reading).
Proof.
  assert (Hsome : forall st', sensorReadings st' <> [] ->
            exists reading,
              get_api_readings_latest st' = json_reading 200 reading
              /\ In reading (Js.map_values (sensorReadings st'))
              /\ Forall (fun r => ts r <= ts reading)
                        (Js.map_values (sensorReadings st'))).
  { intros st' Hne. unfold get_api_readings_latest.
    rewrite StorageFacts.getLatestSensorReading_unfold.
    destruct (sensorReadings st') as [|[k x] m]; [contradiction|].
    unfold Js.map_values; cbn [map snd].
    destruct (StorageFacts.fold_later_split (map snd m) x)
      as (l1 & l2 & Heq & H1 & H2).
    exists (fold_left later (map snd m) x). split; [reflexivity|].
    rewrite Heq. split.
    - apply in_or_app; right; now left.
    - apply Forall_app; split.
      + eapply Forall_impl; [|exact H1]. simpl; intros; lia.
      + constructor; [lia | exact H2]. }
  split; [|split].
  - intros Hempty. unfold get_api_readings_latest.
    rewrite StorageFacts.getLatestSensorReading_unfold. now rewrite Hempty.
  - apply Hsome.
  - intros insertReading now.
    destruct (Hsome (snd (createSensorReading insertReading now st)))
      as (reading & Hr & _); [apply map_set_not_nil|].
    now exists reading.
Qed.


Lemma set_delete_not_In (x : nat) (s : list nat) :
  NoDup s -> ~ In x (Js.set_delete x s).
Proof.
  induction 1 as [|y s Hy Hs IH]; simpl; [tauto|].
  destruct (Nat.eqb y x) eqn:E.
  - apply Nat.eqb_eq in E. now subst.
  - apply Nat.eqb_neq in E. simpl. tauto.
Qed.

Lemma set_delete_In_neq (x y : nat) (s : list nat) :
  y <> x -> (In y (Js.set_delete x s) <-> In y s).
Proof.
  intros Hne. induction s as [|z s IH]; simpl; [tauto|].
  destruct (Nat.eqb z x) eqn:E.
  - apply Nat.eqb_eq in E. subst. split; [tauto|]. intros [Hz|Hin]; [congruence|exact Hin].
  - simpl. rewrite IH. tauto.
Qed.

Lemma set_delete_absent (x : nat) (s : list nat) :
  ~ In x s -> Js.set_delete x s = s.
Proof.
  induction s as [|y s IH]; simpl; [reflexivity|]. intros Hout.
  destruct (Nat.eqb y x) eqn:E.
  - apply Nat.eqb_eq in E. tauto.
  - rewrite IH; tauto.
Qed.

Section Hub.
Context `{ColumnChecks}.

(** X11: [close] removes the socket from the set and nothing else: the other
    sockets stay registered, the storage and the sends are untouched; [error]
    does the same, and a second [close] or an [error] after it changes
    nothing. *)
Theorem close_deregisters (ws : WebSocket) (s : Server) :
  NoDup (wsConnections s) ->
  ~ In ws (wsConnections (dispatch (ws_close ws) s))
  /\ (forall other, other <> ws ->
        (In other (wsConnections (dispatch (ws_close ws) s))
         <-> In other (wsConnections s)))
  /\ storage (dispatch (ws_close ws) s) = storage s
  /\ sent (dispatch (ws_close ws) s) = sent s
  /\ dispatch (ws_error ws) s = dispatch (ws_close ws) s
  /\ dispatch (ws_error ws) (dispatch (ws_close ws) s) = dispatch (ws_close ws) s
  /\ dispatch (ws_close ws) (dispatch (ws_close ws) s) = dispatch (ws_close ws) s.
Proof.
  intros Hnd. unfold dispatch; simpl.
  pose proof (set_delete_not_In ws _ Hnd) as Hout.
  repeat split; trivial.
  - intros Hin. now apply set_delete_In_neq in Hin.
  - intros Hin. now apply set_delete_In_neq.
  - unfold with_wsConnections; simpl. now rewrite (set_delete_absent _ _ Hout).
  - unfold with_wsConnections; simpl. now rewrite (set_delete_absent _ _ Hout).
Qed.

Lemma sent_to_app (ws : WebSocket) (a b : list (WebSocket * Envelope)) :
  sent_to ws (a ++ b) = sent_to ws a ++ sent_to ws b.
Proof. unfold sent_to. now rewrite filter_app, map_app. Qed.

Lemma sent_to_fan_out_absent (ws : WebSocket) (r : SensorReading.t) (s : Server) :
  ~ In ws (wsConnections s) -> sent_to ws (fan_out r s) = [].
Proof.
  intros Hout. unfold sent_to, fan_out.
  induction (wsConnections s) as [|c conns IH]; simpl; [reflexivity|].
  simpl in Hout.
  destruct (is_OPEN (readyState s c)); simpl.
  - destruct (Nat.eqb c ws) eqn:E.
    + apply Nat.eqb_eq in E. tauto.
    + apply IH. tauto.
  - apply IH. tauto.
Qed.

Lemma dispatch_unregistered (ws : WebSocket) (ev : Event) (s : Server) :
  ~ In ws (wsConnections s) ->
  is_connection_of ws ev = false ->
  sent_to ws (sent (dispatch ev s)) = sent_to ws (sent s)
  /\ ~ In ws (wsConnections (dispatch ev s)).
Proof.
  intros Hout Hev. destruct ev as [topic message now|ws'|ws'|ws'].
  - destruct (sensorReading_of message) as [sensorReading|] eqn:Hm.
    + rewrite (RoutesFacts.dispatch_accepted _ _ _ _ _ Hm); simpl.
      rewrite sent_to_app, sent_to_fan_out_absent by exact Hout.
      now rewrite app_nil_r.
    + now rewrite (RoutesFacts.dispatch_rejected _ _ _ _ Hm).
  - simpl in Hev. rewrite RoutesFacts.dispatch_connection; simpl.
    rewrite !sent_to_app. split.
    + unfold sent_to at 2 3.
      destruct (getLatestSensorReading (storage s)); simpl; rewrite Hev; simpl;
        now rewrite !app_nil_r.
    + rewrite JsFacts.set_add_In. apply Nat.eqb_neq in Hev.
      intros [->|Hin]; [now apply Hev | now apply Hout].
  - unfold dispatch; simpl. split; [reflexivity|].
    intros Hin. now apply Hout, (JsFacts.set_delete_In ws').
  - unfold dispatch; simpl. split; [reflexivity|].
    intros Hin. now apply Hout, (JsFacts.set_delete_In ws').
Qed.

(** X12: a socket that is not registered is sent nothing, however many messages
    arrive and other sockets come and go, until it connects again. *)
Theorem unregistered_socket_gets_nothing (ws : WebSocket) (evs : list Event) :
  forall s,
    ~ In ws (wsConnections s) ->
    forallb (fun ev => negb (is_connection_of ws ev)) evs = true ->
    sent_to ws (sent (run evs s)) = sent_to ws (sent s)
    /\ ~ In ws (wsConnections (run evs s)).
Proof.
  induction evs as [|ev evs IH]; intros s Hout Hevs; simpl.
  - now split.
  - simpl in Hevs. apply andb_true_iff in Hevs as [Hev Hevs].
    apply negb_true_iff in Hev.
    destruct (dispatch_unregistered ws ev s Hout Hev) as [Hsent Hout'].
    destruct (IH (dispatch ev s) Hout' Hevs) as [Hsent' Hout''].
    split; [now rewrite Hsent', Hsent | exact Hout''].
Qed.

(** X13: the set of registered sockets never holds a socket twice: if that
    is so of a server it is so after any run of events, a repeated connection
    of the same socket included. *)
Theorem registered_once_along_runs (evs : list Event) (s : Server) :
  NoDup (wsConnections s) -> NoDup (wsConnections (run evs s)).
Proof. exact (RoutesFacts.run_NoDup evs s). Qed.

Lemma dispatch_reachable (ev : Event) (s : Server) :
  reachable (storage s) ->
  reachable (storage (dispatch ev s))
  /\ List.length (sensorReadings (storage (dispatch ev s)))
     = (List.length (sensorReadings (storage s))
        + (if accepted ev then 1 else 0))%nat
  /\ Js.map_values (sensorReadings (storage (dispatch ev s)))
     = Js.map_values (sensorReadings (storage s))
       ++ match ev with
          | mqtt_message _ message now =>
              match sensorReading_of message with
              | Some sensorReading =>
                  [fst (createSensorReading sensorReading now (storage s))]
              | None => []
              end
          | _ => []
          end
  /\ users (storage (dispatch ev s)) = users (storage s).
Proof.
  intros Hreach. destruct ev as [topic message now|ws|ws|ws].
  - simpl accepted. destruct (sensorReading_of message) as [sensorReading|] eqn:Hm.
    + rewrite (RoutesFacts.dispatch_accepted _ _ _ _ _ Hm); simpl.
      split; [exact (reachable_createSensorReading sensorReading now _ Hreach)|].
      destruct (StorageMore.reachable_keys _ Hreach)
        as [_ (Hk & Hc & _)].
      rewrite StorageFacts.map_set_fresh
        by (rewrite Hk, Hc; apply StorageMore.ids_upto_below).
      unfold Js.map_values. rewrite length_app, map_app; simpl.
      repeat split; trivial.
    + rewrite (RoutesFacts.dispatch_rejected _ _ _ _ Hm).
      rewrite app_nil_r, Nat.add_0_r. now repeat split.
  - rewrite RoutesFacts.dispatch_connection; simpl.
    rewrite app_nil_r, Nat.add_0_r. now repeat split.
  - unfold dispatch; simpl. rewrite app_nil_r, Nat.add_0_r. now repeat split.
  - unfold dispatch; simpl. rewrite app_nil_r, Nat.add_0_r. now repeat split.
Qed.

(** X14: along any run of events from a server whose storage is reachable, the
    storage stays reachable, gains exactly one reading for each message that
    passes validation and none otherwise, and its users are untouched. *)
Theorem run_stores_each_accepted_message (evs : list Event) : forall s,
  reachable (storage s) ->
  reachable (storage (run evs s))
  /\ List.length (sensorReadings (storage (run evs s)))
     = (List.length (sensorReadings (storage s))
        + List.length (filter accepted evs))%nat
  /\ users (storage (run evs s)) = users (storage s).
Proof.
  induction evs as [|ev evs IH]; intros s Hreach; simpl.
  - rewrite Nat.add_0_r. now repeat split.
  - destruct (dispatch_reachable ev s Hreach) as (Hreach' & Hlen & _ & Husers).
    destruct (IH (dispatch ev s) Hreach') as (Hreach'' & Hlen' & Husers').
    split; [exact Hreach''|]. split; [|now rewrite Husers', Husers].
    rewrite Hlen', Hlen. destruct (accepted ev); simpl; lia.
Qed.

Lemma dispatch_sent_are_stored (ev : Event) (s : Server) :
  reachable (storage s) -> sent_are_stored s -> sent_are_stored (dispatch ev s).
Proof.
  intros Hreach Hinv ws r Hin.
  destruct (dispatch_reachable ev s Hreach) as (_ & _ & Hvalues & _).
  rewrite Hvalues. apply in_or_app.
  destruct ev as [topic message now|ws'|ws'|ws'].
  - destruct (sensorReading_of message) as [sensorReading|] eqn:Hm.
    + rewrite (RoutesFacts.dispatch_accepted _ _ _ _ _ Hm) in Hin; simpl in Hin.
      apply in_app_or in Hin as [Hold|Hnew]; [left; now apply (Hinv ws)|].
      right. unfold fan_out in Hnew. apply in_map_iff in Hnew as (c & Heq & _).
      injection Heq as _ <-. now left.
    + rewrite (RoutesFacts.dispatch_rejected _ _ _ _ Hm) in Hin.
      left; now apply (Hinv ws).
  - rewrite RoutesFacts.dispatch_connection in Hin; simpl in Hin. left.
    apply in_app_or in Hin as [Hin|Hnew].
    + apply in_app_or in Hin as [Hold|[Hst|[]]]; [now apply (Hinv ws)|].
      discriminate Hst.
    + destruct (getLatestSensorReading (storage s)) as [latest|] eqn:Hl;
        [|destruct Hnew].
      destruct Hnew as [Heq|[]]. injection Heq as _ <-.
      now apply StorageMore.getLatestSensorReading_In.
  - left. now apply (Hinv ws).
  - left. now apply (Hinv ws).
Qed.

(** X15: clients are only ever sent readings that are in the storage: if that
    holds of the sends so far and the storage is reachable, it holds after
    any run of events. *)
Theorem only_stored_readings_are_sent (evs : list Event) : forall s,
  reachable (storage s) -> sent_are_stored s -> sent_are_stored (run evs s).
Proof.
  induction evs as [|ev evs IH]; intros s Hreach Hinv; simpl; [exact Hinv|].
  apply IH.
  - now apply dispatch_reachable.
  - now apply dispatch_sent_are_stored.
Qed.

(** X16: a payload whose three fields are numbers that pass the schema is stored
    field by field: the new reading carries the two temperatures and the
    indicator level of the payload, the next id and the clock value, and it is
    what the open sockets are sent. *)
Theorem numeric_payload_is_stored (topic : string) (data : json) (now : Z)
    (s : Server) (x y z : float) :
  getProp data "suhuDHT" = Some (Some (JNumber x)) ->
  getProp data "suhuLM35" = Some (Some (JNumber y)) ->
  getProp data "LED" = Some (Some (JNumber z)) ->
  PrimFloat.is_nan x = false -> real_check x = true ->
  PrimFloat.is_nan y = false -> real_check y = true ->
  PrimFloat.is_nan z = false -> integer_check z = true ->
  sensorReadings (storage (dispatch (mqtt_message topic (Some data) now) s))
  = Js.map_set (currentReadingId (storage s))
      (SensorReading.mk (currentReadingId (storage s)) (Some x) (Some y) z now)
      (sensorReadings (storage s))
  /\ sent (dispatch (mqtt_message topic (Some data) now) s)
     = sent s
       ++ fan_out (SensorReading.mk (currentReadingId (storage s))
                     (Some x) (Some y) z now) s.
Proof.
  intros Hd Hl He Hxn Hx Hyn Hy Hzn Hz.
  assert (Hok : sensorReading_of (Some data)
                = Some (InsertSensorReading.mk (Js.Val x) (Js.Val y) (Js.Val z))).
  { simpl. rewrite Hd, Hl, He.
    unfold insertSensorReadingSchema_parse, dhtTemperature_schema,
      lm35Temperature_schema, ledLevel_schema; simpl.
    now rewrite Hxn, Hx, Hyn, Hy, Hzn, Hz. }
  rewrite (RoutesFacts.dispatch_accepted _ _ _ _ _ Hok). now split.
Qed.

Lemma temperature_schema_wrong_type (v : json) :
  is_number v = false -> is_null v = false ->
  dhtTemperature_schema (Some v) = None /\ lm35Temperature_schema (Some v) = None.
Proof. destruct v; simpl; intros; try discriminate; now split. Qed.

Lemma ledLevel_schema_wrong_type (v : json) :
  is_number v = false -> ledLevel_schema (Some v) = None.
Proof. destruct v; simpl; intros; try discriminate; reflexivity. Qed.

(** X17: a message is dropped, leaving the server as it was, as soon as one
    temperature field is present with a value that is neither a number nor
    [null], or the indicator level is present with a value that is not a
    number. *)
Theorem wrong_typed_field_is_rejected (topic : string) (data : json) (now : Z)
    (s : Server) (v : json) :
  (getProp data "suhuDHT" = Some (Some v)
   /\ is_number v = false /\ is_null v = false)
  \/ (getProp data "suhuLM35" = Some (Some v)
      /\ is_number v = false /\ is_null v = false)
  \/ (getProp data "LED" = Some (Some v) /\ is_number v = false) ->
  dispatch (mqtt_message topic (Some data) now) s = s.
Proof.
  intros Hbad. apply RoutesFacts.dispatch_rejected.
  destruct data as [| | | | |fields];
    try (simpl in Hbad; exfalso;
         destruct Hbad as [(Hg & _)|[(Hg & _)|(Hg & _)]]; discriminate).
  simpl in *. apply RoutesFacts.insertSensorReadingSchema_parse_None.
  destruct Hbad as [(Hg & Hn & Hnull)|[(Hg & Hn & Hnull)|(Hg & Hn)]];
    injection Hg as Hg; rewrite Hg.
  - left. now apply temperature_schema_wrong_type.
  - right; left. now apply temperature_schema_wrong_type.
  - right; right. now apply ledLevel_schema_wrong_type.
Qed.

(** X18: a payload that parses to something other than an object: [null] is
    dropped (reading a property of it throws); a number, a string, a boolean
    or an array has none of the three fields and is stored as a reading with
    both temperatures [null] and indicator level 0. *)
Theorem payload_that_is_no_object (topic : string) (data : json) (now : Z)
    (s : Server) :
  is_object data = false ->
  (is_null data = true -> dispatch (mqtt_message topic (Some data) now) s = s)
  /\ (is_null data = false ->
      sensorReadings (storage (dispatch (mqtt_message topic (Some data) now) s))
      = Js.map_set (currentReadingId (storage s))
          (SensorReading.mk (currentReadingId (storage s)) None None 0%float now)
          (sensorReadings (storage s))
      /\ sent (dispatch (mqtt_message topic (Some data) now) s)
         = sent s
           ++ fan_out (SensorReading.mk (currentReadingId (storage s))
                         None None 0%float now) s).
Proof.
  intros Hobj. split; intros Hnull.
  - destruct data; try discriminate. now apply RoutesFacts.dispatch_rejected.
  - assert (Hok : sensorReading_of (Some data)
                  = Some (InsertSensorReading.mk Js.Undefined Js.Undefined
                                                 Js.Undefined))
      by (destruct data; try discriminate; reflexivity).
    rewrite (RoutesFacts.dispatch_accepted _ _ _ _ _ Hok). now split.
Qed.

End Hub.

Lemma hub_NoDup : NoDup (wsConnections Samples.hub).
Proof. simpl. repeat constructor; simpl; intuition discriminate. Defined.

Lemma hub_reachable : reachable (storage Samples.hub).
Proof.
  apply StorageFacts.reachable_createSensorReading_each, reachable_constructor.
Defined.

Lemma close_deregisters_witness :
  NoDup (wsConnections Samples.hub)
  /\ wsConnections (@dispatch Samples.unrefined (ws_close 11%nat) Samples.hub)
     = [10%nat; 12%nat]
  /\ ~ In 11%nat
         (wsConnections (@dispatch Samples.unrefined (ws_close 11%nat) Samples.hub)).
Proof.
  split; [exact hub_NoDup|]. split; [reflexivity|].
  exact (proj1 (@close_deregisters Samples.unrefined 11%nat Samples.hub hub_NoDup)).
Defined.

Lemma unregistered_socket_gets_nothing_witness :
  ~ In 13%nat (wsConnections Samples.hub)
  /\ forallb (fun ev => negb (is_connection_of 13%nat ev)) MoreSamples.busy = true
  /\ sent_to 13%nat (sent (@run Samples.unrefined MoreSamples.busy Samples.hub))
     = sent_to 13%nat (sent Samples.hub).
Proof.
  assert (Hout : ~ In 13%nat (wsConnections Samples.hub))
    by (simpl; intuition discriminate).
  split; [exact Hout|]. split; [reflexivity|].
  exact (proj1 (@unregistered_socket_gets_nothing Samples.unrefined 13%nat
                  MoreSamples.busy Samples.hub Hout eq_refl)).
Defined.

Lemma registered_once_along_runs_witness :
  NoDup (wsConnections Samples.hub)
  /\ wsConnections (@run Samples.unrefined MoreSamples.busy Samples.hub)
     = [11%nat; 12%nat; 14%nat]
  /\ NoDup (wsConnections (@run Samples.unrefined MoreSamples.busy Samples.hub)).
Proof.
  split; [exact hub_NoDup|]. split; [reflexivity|].
  exact (@registered_once_along_runs Samples.unrefined MoreSamples.busy
           Samples.hub hub_NoDup).
Defined.

Lemma run_stores_each_accepted_message_witness :
  reachable (storage Samples.hub)
  /\ List.length (filter (@accepted Samples.unrefined) MoreSamples.busy) = 1%nat
  /\ List.length (sensorReadings
                    (storage (@run Samples.unrefined MoreSamples.busy Samples.hub)))
     = (List.length (sensorReadings (storage Samples.hub))
        + List.length (filter (@accepted Samples.unrefined) MoreSamples.busy))%nat.
Proof.
  split; [exact hub_reachable|]. split; [reflexivity|].
  exact (proj1 (proj2 (@run_stores_each_accepted_message Samples.unrefined
                         MoreSamples.busy Samples.hub hub_reachable))).
Defined.

Lemma only_stored_readings_are_sent_witness :
  reachable (storage Samples.hub)
  /\ sent_are_stored Samples.hub
  /\ sent_are_stored (@run Samples.unrefined MoreSamples.busy Samples.hub).
Proof.
  assert (Hinv : sent_are_stored Samples.hub) by (intros ws r []).
  split; [exact hub_reachable|]. split; [exact Hinv|].
  exact (@only_stored_readings_are_sent Samples.unrefined MoreSamples.busy
           Samples.hub hub_reachable Hinv).
Defined.

Lemma numeric_payload_is_stored_witness :
  getProp Samples.telemetry "LED" = Some (Some (JNumber 2%float))
  /\ sent (@dispatch Samples.unrefined
             (mqtt_message Samples.topic (Some Samples.telemetry) 8) Samples.hub)
     = [(10%nat, sensor_data MoreSamples.reading4);
        (12%nat, sensor_data MoreSamples.reading4)].
Proof.
  split; [reflexivity|].
  exact (proj2 (@numeric_payload_is_stored Samples.unrefined Samples.topic
                  Samples.telemetry 8 Samples.hub 26.5%float 27.5%float 2%float
                  eq_refl eq_refl eq_refl eq_refl eq_refl eq_refl eq_refl
                  eq_refl eq_refl)).
Defined.

Lemma wrong_typed_field_is_rejected_witness :
  getProp MoreSamples.text_LED "LED" = Some (Some (JString "2"))
  /\ is_number (JString "2") = false
  /\ @dispatch Samples.unrefined
       (mqtt_message Samples.topic (Some MoreSamples.text_LED) 8) Samples.hub
     = Samples.hub.
Proof.
  split; [reflexivity|]. split; [reflexivity|].
  exact (@wrong_typed_field_is_rejected Samples.unrefined Samples.topic
           MoreSamples.text_LED 8 Samples.hub (JString "2")
           (or_intror (or_intror (conj eq_refl eq_refl)))).
Defined.

Lemma payload_that_is_no_object_witness :
  is_object (JNumber 42%float) = false
  /\ is_null (JNumber 42%float) = false
  /\ sent (@dispatch Samples.unrefined
             (mqtt_message Samples.topic (Some (JNumber 42%float)) 8) Samples.hub)
     = [(10%nat, sensor_data (SensorReading.mk 4 None None 0%float 8));
        (12%nat, sensor_data (SensorReading.mk 4 None None 0%float 8))].
Proof.
  split; [reflexivity|]. split; [reflexivity|].
  exact (proj2 (proj2 (@payload_that_is_no_object Samples.unrefined Samples.topic
                         (JNumber 42%float) 8 Samples.hub eq_refl) eq_refl)).
Defined.

End RoutesMore.

(* ------------------------------------------------------------------------- *)
(** * The dashboard *)
(* ------------------------------------------------------------------------- *)

Module DashboardFacts.
Import Storage Routes Vocabulary Dashboard.

Lemma onmessage_sensor_data (reading : SensorReading.t) (now : Z) (st : State) :
  onmessage (Some (received (sensor_data reading))) now st
  = {| wsConnected := wsConnected st;
       connectionStatus := connectionStatus st;
       sensorData := Some reading;
       historicalData := firstn 20 (reading :: historicalData st);
       lastUpdate := Some now |}.
Proof.
  transitivity
    {| wsConnected := wsConnected st;
       connectionStatus := connectionStatus st;
       sensorData := Some reading;
       historicalData := Js.slice 0 20 (reading :: historicalData st);
       lastUpdate := Some now |}; [reflexivity|].
  now rewrite JsFacts.slice_0_pos by lia.
Qed.


Lemma firstn_app_firstn {A : Type} (a b : list A) : forall n m : nat,
  (n <= m)%nat -> firstn n (a ++ firstn m b) = firstn n (a ++ b).
Proof.
  induction a as [|x a IH]; intros n m Hle; simpl.
  - rewrite firstn_firstn. f_equal. lia.
  - destruct n as [|n]; [reflexivity|]. simpl. f_equal. apply IH. lia.
Qed.

(** X19: a dashboard whose history has at most 20 entries and that receives a run
    of [sensor_data] envelopes keeps the 20 newest readings, newest first: the
    history never grows beyond 20, the reading on display is the last one
    received, and the connection indicator is not touched. *)
Theorem history_keeps_20_newest (readings : list SensorReading.t) (now : Z) :
  forall st,
    (List.length (historicalData st) <= 20)%nat ->
    historicalData (deliver (map sensor_data readings) now st)
    = firstn 20 (rev readings ++ historicalData st)
    /\ (List.length (historicalData (deliver (map sensor_data readings) now st))
        <= 20)%nat
    /\ sensorData (deliver (map sensor_data readings) now st)
       = match rev readings with
         | newest :: _ => Some newest
         | [] => sensorData st
         end
    /\ connectionStatus (deliver (map sensor_data readings) now st)
       = connectionStatus st.
Proof.
  induction readings as [|r readings IH]; intros st Hlen.
  - unfold deliver; cbn [map fold_left rev app].
    rewrite firstn_all2 by exact Hlen. now repeat split.
  - unfold deliver in *. cbn [map fold_left]. rewrite onmessage_sensor_data.
    match goal with
    | |- context [fold_left _ _ ?st1] =>
        destruct (IH st1) as (Hh & Hl & Hs & Hc)
    end.
    { cbn [historicalData]. rewrite length_firstn. lia. }
    cbn [historicalData sensorData connectionStatus] in Hh, Hs, Hc.
    rewrite Hh, Hs, Hc. cbn [rev].
    rewrite firstn_app_firstn by lia. rewrite <- app_assoc. cbn [app].
    repeat split.
    + rewrite length_firstn. lia.
    + destruct (rev readings); reflexivity.
Qed.

Lemma history_keeps_20_newest_witness :
  (List.length (historicalData initial) <= 20)%nat
  /\ historicalData
       (deliver (map sensor_data [Samples.reading1; Samples.reading2]) 9 initial)
     = [Samples.reading2; Samples.reading1].
Proof.
  assert (Hlen : (List.length (historicalData initial) <= 20)%nat) by (simpl; lia).
  split; [exact Hlen|].
  exact (proj1 (history_keeps_20_newest [Samples.reading1; Samples.reading2] 9
                  initial Hlen)).
Defined.

(** X20: the history that the dashboard loads from the recent route, which it
    queries without a limit, has at most 20 entries, newest first; this is the
    bound the live updates then keep. *)
Theorem loaded_history_is_bounded (st : MemStorage) (dashboard : State) :
  exists readings,
    get_api_readings_recent None st = json_readings 200 readings
    /\ historicalData (recentReadings_effect (Some readings) dashboard) = readings
    /\ (List.length (historicalData (recentReadings_effect (Some readings) dashboard))
        <= 20)%nat
    /\ StronglySorted
         (fun a b => SensorReading.timestamp b <= SensorReading.timestamp a)
         (historicalData (recentReadings_effect (Some readings) dashboard)).
Proof.
  exists (getRecentSensorReadings 20 st).
  split; [reflexivity|]. split; [reflexivity|]. cbn [recentReadings_effect historicalData].
  unfold getRecentSensorReadings. rewrite JsFacts.slice_0_pos by lia.
  split.
  - rewrite length_firstn. lia.
  - apply (JsFacts.sorted_firstn SensorReading.timestamp).
    exact (JsFacts.sort_sorted SensorReading.timestamp _).
Qed.



Section EndToEnd.
Context `{Schema.ColumnChecks}.


End EndToEnd.


End DashboardFacts.
